(** * rs-go: resilient transport, error classifier, request signer and
      webhook verifier of the RenderScreenshot Go SDK

    A shallow embedding of [errors.go], [http.go], [webhook.go] and of
    [Client.GenerateURL], followed by the properties of the specification
    that concern them.

    Modelling conventions
    - Go [string] is a byte sequence: Stdlib [string] (a list of [ascii]).
    - Go [int] and [int64] are [Z] with the 64-bit two's-complement
      wrap-around written out where the code does arithmetic.
    - Go [float64] is IEEE-754 binary64, through the executable
      specification [spec_float] of the Standard Library.
    - Go [map[string]T] is [gmap string T]; the unspecified order of a
      [range] over a map is an explicit argument, a list of the map's keys.
    - [time.Now], [rand.Float64] and the remote server are explicit inputs. *)

From Stdlib Require Import ZArith Lia Bool List Ascii String.
From Stdlib Require Import Floats.SpecFloat.
From stdpp Require Import gmap strings list sorting.

Import ListNotations.
Local Open Scope string_scope.
Local Open Scope Z_scope.

(** ** Machine integers *)

Module Int64.

Definition min_int : Z := - 2 ^ 63.
Definition max_int : Z := 2 ^ 63 - 1.

Definition in_range (z : Z) : bool := (min_int <=? z) && (z <=? max_int).

(** Two's-complement reduction of a mathematical integer to [int64]. *)
Definition wrap (z : Z) : Z := (z + 2 ^ 63) mod 2 ^ 64 - 2 ^ 63.

Definition sub (a b : Z) : Z := wrap (a - b).
Definition neg (a : Z) : Z := wrap (- a).

End Int64.

(** ** Package [strconv] *)

Module Strconv.

Definition is_digit (c : ascii) : bool :=
  let n := Z.of_N (N_of_ascii c) in (48 <=? n) && (n <=? 57).

Definition digit_val (c : ascii) : Z := Z.of_N (N_of_ascii c) - 48.

(** Value of a non-empty string of decimal digits; [None] on any other
    byte.  Base 10 given explicitly: underscores are not accepted. *)
Fixpoint parse_digits (acc : Z) (s : string) : option Z :=
  match s with
  | EmptyString => Some acc
  | String c rest =>
      if is_digit c then parse_digits (acc * 10 + digit_val c) rest
      else None
  end.

Definition parse_unsigned (s : string) : option Z :=
  match s with
  | EmptyString => None
  | _ => parse_digits 0 s
  end.

(** [strconv.ParseInt(s, 10, 64)]: an optional sign, decimal digits, and
    a range check; [None] stands for a non-nil [err]. *)
Definition ParseInt (s : string) : option Z :=
  match s with
  | EmptyString => None
  | String c rest =>
      let '(neg, body) :=
        if Ascii.eqb c "+" then (false, rest)
        else if Ascii.eqb c "-" then (true, rest)
        else (false, s) in
      match parse_unsigned body with
      | None => None
      | Some un =>
          let v := if neg then - un else un in
          if Int64.in_range v then Some v else None
      end
  end.

(** [strconv.Atoi] on a 64-bit platform agrees with [ParseInt(s, 10, 0)]:
    its fast path for short strings accepts the same syntax. *)
Definition Atoi (s : string) : option Z := ParseInt s.

Definition digit_char (d : Z) : ascii := ascii_of_N (Z.to_N (48 + d)).

Fixpoint format_digits (fuel : nat) (n : Z) (acc : string) : string :=
  match fuel with
  | O => acc
  | S fuel' =>
      let acc' := String (digit_char (n mod 10)) acc in
      if n <? 10 then acc' else format_digits fuel' (n / 10) acc'
  end.

(** [fmt.Sprintf("%d", n)]. *)
Definition FormatInt (n : Z) : string :=
  if n <? 0 then String "-" (format_digits (S (Z.to_nat (Z.log2 (- n)))) (- n) EmptyString)
  else format_digits (S (Z.to_nat (Z.log2 n))) n EmptyString.

End Strconv.

(** ** [float64] *)

Module Float64.

Definition prec : Z := 53.
Definition emax : Z := 1024.

Abbreviation float64 := spec_float.

(** Conversion [float64(n)] of an integer. *)
Definition of_int (n : Z) : float64 := binary_normalize prec emax n 0 false.

Definition add : float64 -> float64 -> float64 := SFadd prec emax.
Definition mul : float64 -> float64 -> float64 := SFmul prec emax.
Definition div : float64 -> float64 -> float64 := SFdiv prec emax.
Definition gtb (x y : float64) : bool := SFltb y x.

(** [math.Pow(2, float64(n))]: the power of two, correctly rounded
    (infinite on overflow, zero on underflow). *)
Definition pow2 (n : Z) : float64 := SFldexp prec emax (of_int 1) n.

(** The constant [0.5]. *)
Definition half : float64 := div (of_int 1) (of_int 2).

(** Conversion [int64(f)]: truncation toward zero.  Outside the range of
    [int64], and for NaN, amd64 yields the minimal integer. *)
Definition to_int64 (f : float64) : Z :=
  match f with
  | S754_zero _ => 0
  | S754_finite s m e =>
      let mag := if 0 <=? e then Z.pos m * 2 ^ e else Z.pos m / 2 ^ (- e) in
      let v := if s then - mag else mag in
      if Int64.in_range v then v else Int64.min_int
  | _ => Int64.min_int
  end.

End Float64.

(** ** Bytes of a string *)

Definition bytes_of_string (s : string) : list Z :=
  List.map (fun c => Z.of_N (N_of_ascii c)) (list_ascii_of_string s).

(** ** Package [crypto/sha256] (FIPS 180-4) *)

Module SHA256.

Definition w32 (z : Z) : Z := z mod 2 ^ 32.
Definition add32 (a b : Z) : Z := w32 (a + b).
Definition rotr (n x : Z) : Z :=
  w32 (Z.lor (Z.shiftr x n) (Z.shiftl x (32 - n))).
Definition ch (x y z : Z) : Z :=
  Z.lxor (Z.land x y) (Z.land (Z.lxor x 0xffffffff) z).
Definition maj (x y z : Z) : Z :=
  Z.lxor (Z.lxor (Z.land x y) (Z.land x z)) (Z.land y z).
Definition bsig0 (x : Z) : Z := Z.lxor (Z.lxor (rotr 2 x) (rotr 13 x)) (rotr 22 x).
Definition bsig1 (x : Z) : Z := Z.lxor (Z.lxor (rotr 6 x) (rotr 11 x)) (rotr 25 x).
Definition ssig0 (x : Z) : Z := Z.lxor (Z.lxor (rotr 7 x) (rotr 18 x)) (Z.shiftr x 3).
Definition ssig1 (x : Z) : Z := Z.lxor (Z.lxor (rotr 17 x) (rotr 19 x)) (Z.shiftr x 10).

(** The first sixty-four primes. *)
Definition is_prime (n : Z) : bool :=
  (2 <=? n) && forallb (fun d => negb (n mod d =? 0))
                       (List.map Z.of_nat (List.seq 2 (Z.to_nat (Z.sqrt n) - 1))).

Definition primes : list Z :=
  Eval vm_compute in List.filter is_prime (List.map Z.of_nat (List.seq 2 310)).

(** Integer cube root, one bit at a time. *)
Fixpoint icbrt (bits : nat) (n acc : Z) : Z :=
  match bits with
  | O => acc
  | S b =>
      let c := acc + 2 ^ Z.of_nat b in
      if c * c * c <=? n then icbrt b n c else icbrt b n acc
  end.

(** Round constants: the first 32 bits of the fractional parts of the cube
    roots of the primes. *)
Definition K : list Z :=
  Eval vm_compute in List.map (fun p => icbrt 40 (p * 2 ^ 96) 0 mod 2 ^ 32) primes.

(** Initial hash value: likewise from the square roots of the first eight
    primes. *)
Definition H0 : list Z :=
  Eval vm_compute in List.map (fun p => Z.sqrt (p * 2 ^ 64) mod 2 ^ 32) (firstn 8 primes).

(** Big-endian encodings. *)
Fixpoint be_bytes (n : nat) (z : Z) : list Z :=
  match n with
  | O => []
  | S n' => (Z.shiftr z (8 * Z.of_nat n')) mod 256 :: be_bytes n' z
  end.

Definition be_word (bs : list Z) : Z :=
  List.fold_left (fun acc b => acc * 256 + b) bs 0.

Fixpoint words_of (n : nat) (bs : list Z) : list Z :=
  match n with
  | O => []
  | S n' => be_word (firstn 4 bs) :: words_of n' (skipn 4 bs)
  end.

Definition pad (msg : list Z) : list Z :=
  let len := Z.of_nat (List.length msg) in
  msg ++ [0x80] ++ List.repeat 0 (Z.to_nat ((55 - len) mod 64))
      ++ be_bytes 8 (8 * len).

(** Message schedule: sixteen words extended to sixty-four. *)
Fixpoint schedule (n : nat) (w : list Z) : list Z :=
  match n with
  | O => w
  | S n' =>
      let t := List.length w in
      let at_ i := nth (t - i) w 0 in
      schedule n'
        (w ++ [add32 (add32 (ssig1 (at_ 2%nat)) (at_ 7%nat))
                     (add32 (ssig0 (at_ 15%nat)) (at_ 16%nat))])
  end.

Definition round (st : list Z) (kw : Z * Z) : list Z :=
  match st with
  | [a; b; c; d; e; f; g; h] =>
      let t1 := add32 (add32 (add32 h (bsig1 e)) (add32 (ch e f g) (fst kw))) (snd kw) in
      let t2 := add32 (bsig0 a) (maj a b c) in
      [add32 t1 t2; a; b; c; add32 d t1; e; f; g]
  | _ => st
  end.

Definition compress (h : list Z) (block : list Z) : list Z :=
  let w := schedule 48 (words_of 16 block) in
  let st := List.fold_left round (List.combine K w) h in
  List.map (fun p => add32 (fst p) (snd p)) (List.combine h st).

Fixpoint blocks (n : nat) (h : list Z) (bs : list Z) : list Z :=
  match n with
  | O => h
  | S n' => blocks n' (compress h (firstn 64 bs)) (skipn 64 bs)
  end.

(** [sha256.Sum256]: the 32-byte digest. *)
Definition Sum256 (msg : list Z) : list Z :=
  let p := pad msg in
  List.concat (List.map (be_bytes 4) (blocks (List.length p / 64) H0 p)).

End SHA256.

(** ** Package [crypto/hmac] (RFC 2104) over SHA-256 *)

Module HMAC.

Definition block_size : nat := 64.

Definition normalize_key (key : list Z) : list Z :=
  let k := if (block_size <? List.length key)%nat then SHA256.Sum256 key else key in
  k ++ List.repeat 0 (block_size - List.length k).

Definition xor_pad (c : Z) (key : list Z) : list Z :=
  List.map (fun b => Z.lxor b c) key.

(** [mac := hmac.New(sha256.New, key); mac.Write(msg); mac.Sum(nil)]. *)
Definition Sum (key msg : list Z) : list Z :=
  let k := normalize_key key in
  SHA256.Sum256 (xor_pad 0x5c k ++ SHA256.Sum256 (xor_pad 0x36 k ++ msg)).

End HMAC.

(** ** Package [encoding/hex] *)

Module Hex.

Definition hextable : string := "0123456789abcdef".

Definition digit (d : Z) : ascii :=
  match String.get (Z.to_nat d) hextable with
  | Some c => c
  | None => "0"%char
  end.

Fixpoint EncodeToString (bs : list Z) : string :=
  match bs with
  | [] => EmptyString
  | b :: rest => String (digit (b / 16)) (String (digit (b mod 16)) (EncodeToString rest))
  end.

End Hex.

(** [hex.EncodeToString] of the HMAC-SHA256 of [msg] under [key]. *)
Definition hmac_sha256_hex (key msg : string) : string :=
  Hex.EncodeToString (HMAC.Sum (bytes_of_string key) (bytes_of_string msg)).

(** ** errors.go *)

#[local] Set Warnings "-register-all".

(** Values held by a [map[string]interface{}] decoded from JSON. *)
Inductive value : Type :=
| VNil
| VBool (b : bool)
| VNumber (f : Float64.float64)
| VString (s : string)
| VArray (l : list value)
| VObject (m : gmap string value).

(** The type assertions [v.(string)] and [v.(map[string]interface{})] on
    the result of a map lookup (a missing key yields the nil interface, on
    which every assertion fails). *)
Definition as_string (v : option value) : option string :=
  match v with
  | Some (VString s) => Some s
  | _ => None
  end.

Definition as_object (v : option value) : option (gmap string value) :=
  match v with
  | Some (VObject m) => Some m
  | _ => None
  end.

Definition ErrorCode := string.

Definition CodeInvalidURL : ErrorCode := "invalid_url".
Definition CodeInvalidRequest : ErrorCode := "invalid_request".
Definition CodeMissingRequired : ErrorCode := "missing_required".
Definition CodeUnauthorized : ErrorCode := "unauthorized".
Definition CodeInvalidAPIKey : ErrorCode := "invalid_api_key".
Definition CodeExpiredSig : ErrorCode := "expired_signature".
Definition CodeForbidden : ErrorCode := "forbidden".
Definition CodeNoCredits : ErrorCode := "insufficient_credits".
Definition CodeNotFound : ErrorCode := "not_found".
Definition CodeRateLimited : ErrorCode := "rate_limited".
Definition CodeTimeout : ErrorCode := "timeout".
Definition CodeRenderFailed : ErrorCode := "render_failed".
Definition CodeInternalError : ErrorCode := "internal_error".
Definition CodeConnectionError : ErrorCode := "connection_error".

Record Error : Type := mkError {
  Message : string;
  HTTPStatus : Z;
  Code : ErrorCode;
  RequestID : string;
  RetryAfter : Z
}.

Definition IsRetryable (e : Error) : bool :=
  if String.eqb (Code e) CodeRateLimited || String.eqb (Code e) CodeTimeout
     || String.eqb (Code e) CodeRenderFailed || String.eqb (Code e) CodeInternalError
     || String.eqb (Code e) CodeConnectionError
  then true
  else if (500 <=? HTTPStatus e) && (HTTPStatus e <? 600) then true
  else false.

(** The [switch] of [errorFromResponse], entered when [code] is empty. *)
Definition infer_code (httpStatus : Z) : ErrorCode :=
  if httpStatus =? 400 then CodeInvalidRequest
  else if httpStatus =? 401 then CodeUnauthorized
  else if httpStatus =? 403 then CodeForbidden
  else if httpStatus =? 404 then CodeNotFound
  else if httpStatus =? 408 then CodeTimeout
  else if httpStatus =? 422 then CodeInvalidRequest
  else if httpStatus =? 429 then CodeRateLimited
  else if 500 <=? httpStatus then CodeInternalError
  else EmptyString.

Definition errorFromResponse (httpStatus : Z) (body : gmap string value)
    (retryAfter : Z) (requestID : string) : Error :=
  let message := "HTTP " ++ Strconv.FormatInt httpStatus ++ " error" in
  let code : ErrorCode := EmptyString in
  let '(message, code, requestID) :=
    match as_object (body !! "error") with
    | Some errMap =>
        let message :=
          match as_string (errMap !! "message") with
          | Some msg => msg
          | None => message
          end in
        let code :=
          match as_string (errMap !! "code") with
          | Some c => c
          | None => code
          end in
        let requestID :=
          match as_string (errMap !! "request_id") with
          | Some rid => if String.eqb requestID EmptyString then rid else requestID
          | None => requestID
          end in
        (message, code, requestID)
    | None => (message, code, requestID)
    end in
  let requestID :=
    if String.eqb requestID EmptyString then
      match as_string (body !! "request_id") with
      | Some rid => rid
      | None => requestID
      end
    else requestID in
  let code := if String.eqb code EmptyString then infer_code httpStatus else code in
  {| Message := message; HTTPStatus := httpStatus; Code := code;
     RequestID := requestID; RetryAfter := retryAfter |}.

(** ** http.go *)

Definition defaultRetryDelay : Float64.float64 := Float64.of_int 1.
Definition maxRetryDelay : Float64.float64 := Float64.of_int 30.

Record httpClient : Type := mkHTTPClient {
  apiKey : string;
  baseURL : string;
  maxRetries : Z;
  retryDelay : Float64.float64
}.

Definition parseRetryAfter (v : string) : Z :=
  if String.eqb v EmptyString then 0
  else match Strconv.Atoi v with
       | None => 0
       | Some n => n
       end.

(** [calculateDelay]; [r] is the value drawn by [rand.Float64()], which the
    code draws only on the second path. *)
Definition calculateDelay (c : httpClient) (err : Error) (attempt : Z)
    (r : Float64.float64) : Float64.float64 :=
  if 0 <? RetryAfter err then Float64.of_int (RetryAfter err)
  else
    let calculated := Float64.mul (retryDelay c) (Float64.pow2 attempt) in
    let jitter := Float64.mul (Float64.mul r (retryDelay c)) Float64.half in
    let delay := Float64.add calculated jitter in
    if Float64.gtb delay maxRetryDelay then maxRetryDelay else delay.

(** A Go [error] value: the type assertion of [err] to a pointer to
    [Error] succeeds on the first constructor only. *)
Inductive error : Type :=
| ApiError (e : Error)
| OtherError (msg : string).

(** The three results [([]byte, http.Header, error)] of a request. *)
Inductive result : Type :=
| Success (respBody : option string) (respHeaders : option (gmap string string))
| Failure (err : error).

(** What one round trip can yield, in the order of the return statements
    of [doRequest]. *)
Inductive exchange : Type :=
| MarshalFailed
| NewRequestFailed (msg : string)
| DoFailed (msg : string)
| ReadFailed (msg : string)
| Response (status : Z) (header : gmap string string) (respBody : string)
    (decoded : option (gmap string value)).

Fixpoint prefixb (p s : string) : bool :=
  match p, s with
  | EmptyString, _ => true
  | String a p', String b s' => Ascii.eqb a b && prefixb p' s'
  | _, EmptyString => false
  end.

(** [strings.Contains]. *)
Fixpoint Contains (s sub : string) : bool :=
  prefixb sub s ||
  match s with
  | EmptyString => false
  | String _ s' => Contains s' sub
  end.

Definition isTimeoutError (msg : string) : bool :=
  Contains msg "timeout" || Contains msg "deadline exceeded".

Definition header_get (h : gmap string string) (k : string) : string :=
  default EmptyString (h !! k).

(** The part of [doRequest] that follows the round trip. *)
Definition doRequest_result (x : exchange) : result :=
  match x with
  | MarshalFailed =>
      Failure (ApiError (mkError "failed to marshal request body" 0 CodeInvalidRequest EmptyString 0))
  | NewRequestFailed msg =>
      Failure (ApiError (mkError ("failed to create request: " ++ msg) 0 CodeConnectionError EmptyString 0))
  | DoFailed msg =>
      if isTimeoutError msg
      then Failure (ApiError (mkError "Request timed out" 408 CodeTimeout EmptyString 0))
      else Failure (ApiError (mkError ("Failed to connect to server: " ++ msg) 0 CodeConnectionError EmptyString 0))
  | ReadFailed msg =>
      Failure (ApiError (mkError ("failed to read response body: " ++ msg) 0 CodeConnectionError EmptyString 0))
  | Response status header respBody decoded =>
      if 400 <=? status then
        let retryAfter := parseRetryAfter (header_get header "Retry-After") in
        let requestID := header_get header "X-Request-Id" in
        let bodyMap := default ∅ decoded in
        Failure (ApiError (errorFromResponse status bodyMap retryAfter requestID))
      else Success (Some respBody) (Some header)
  end.

(** The observable effects of one logical call: how many requests were
    issued and which delays were slept, latest first. *)
Record world : Type := mkWorld {
  calls : nat;
  slept : list Float64.float64
}.

Definition world0 : world := mkWorld 0 [].

Section Transport.

(** The result of the [n]-th invocation of [doRequest] of this call, and
    the value [rand.Float64()] yields after it. *)
Variable doRequest : nat -> result.
Variable rand : nat -> Float64.float64.

(** The [for] loop of [doWithRetry]; [None] only if [fuel] runs out. *)
Fixpoint retry_loop (fuel : nat) (c : httpClient) (attempt : Z)
    (lastErr : option error) (w : world) : option (result * world) :=
  match fuel with
  | O => None
  | S fuel' =>
      if attempt <=? maxRetries c then
        let r := doRequest (calls w) in
        let w1 := mkWorld (S (calls w)) (slept w) in
        match r with
        | Success respBody respHeaders => Some (Success respBody respHeaders, w1)
        | Failure err =>
            let lastErr := Some err in
            match err with
            | ApiError apiErr =>
                if negb (IsRetryable apiErr) || (maxRetries c <=? attempt)
                then Some (Failure err, w1)
                else
                  let delay := calculateDelay c apiErr attempt (rand (calls w)) in
                  let w2 := mkWorld (calls w1) (delay :: slept w1) in
                  retry_loop fuel' c (attempt + 1) lastErr w2
            | OtherError _ => Some (Failure err, w1)
            end
        end
      else
        Some (match lastErr with
              | Some e => Failure e
              | None => Success None None
              end, w)
  end.

Definition doWithRetry (c : httpClient) (w : world) : option (result * world) :=
  retry_loop (S (Z.to_nat (maxRetries c + 1))) c 0 None w.

End Transport.

(** ** client.go: signed URLs *)

Record Client : Type := mkClient {
  http : httpClient;
  signingKey : string;
  publicKeyID : string
}.

Module URL.

Definition upperhex : string := "0123456789ABCDEF".

Definition hexdigit (d : Z) : ascii :=
  match String.get (Z.to_nat d) upperhex with
  | Some c => c
  | None => "0"%char
  end.

Definition between (lo hi c : Z) : bool := (lo <=? c) && (c <=? hi).

(** [shouldEscape(c, encodeQueryComponent)]: only the unreserved bytes
    pass unescaped in a query component. *)
Definition shouldEscape (c : Z) : bool :=
  if between 97 122 c || between 65 90 c || between 48 57 c then false
  else if (c =? 45) || (c =? 95) || (c =? 46) || (c =? 126) then false
  else true.

Definition escape_byte (a : ascii) : string :=
  let c := Z.of_N (N_of_ascii a) in
  if shouldEscape c then
    if c =? 32 then "+"
    else String "%" (String (hexdigit (c / 16)) (String (hexdigit (c mod 16)) EmptyString))
  else String a EmptyString.

Fixpoint QueryEscape (s : string) : string :=
  match s with
  | EmptyString => EmptyString
  | String a rest => escape_byte a ++ QueryEscape rest
  end.

End URL.

(** [strings.Join]. *)
Fixpoint Join (parts : list string) (sep : string) : string :=
  match parts with
  | [] => EmptyString
  | [p] => p
  | p :: rest => p ++ sep ++ Join rest sep
  end.

(** The byte-wise lexicographic order of Go strings. *)
Definition string_le (a b : string) : Prop := String.leb a b = true.

#[global] Instance string_le_dec a b : Decision (string_le a b).
Proof. unfold string_le. apply _. Defined.

(** [sort.Strings]. *)
Definition sort_Strings (keys : list string) : list string :=
  merge_sort string_le keys.

(** A list is an order in which [range] may visit a map when it lists the
    keys of the map, each once. *)
Definition range_order {V} (order : list string) (m : gmap string V) : Prop :=
  order ≡ₚ (map_to_list m).*1.

Definition canonical_part (signParams : gmap string string) (k : string) : string :=
  k ++ "=" ++ URL.QueryEscape (default EmptyString (signParams !! k)).

(** The canonical query string of a parameter map whose keys [range]
    yields in the order [order]. *)
Definition canonical_query (signParams : gmap string string)
    (order : list string) : string :=
  let keys := fold_left (fun ks k => (ks ++ [k])%list) order [] in
  let keys := sort_Strings keys in
  let parts := fold_left (fun ps k => (ps ++ [canonical_part signParams k])%list) keys [] in
  Join parts "&".

(** The parameter map that is signed: [expires] and [key_id], then the
    flattened options, visited in the order [order]. *)
Definition sign_params (flatMap : gmap string string) (order : list string)
    (expires : Z) (keyID : string) : gmap string string :=
  let signParams : gmap string string :=
    <["key_id" := keyID]> (<["expires" := Strconv.FormatInt expires]> ∅) in
  fold_left
    (fun acc k => match flatMap !! k with
                  | Some v => <[k := v]> acc
                  | None => acc
                  end)
    order signParams.

(** [GenerateURL]; [flatMap] is [options.toFlatMap()] for options that
    are not nil, [expires] is [expiresAt.Unix()], and [order1], [order2]
    are the orders of the two [range] loops.  The pair returned is the
    URL and the error, [None] for nil. *)
Definition GenerateURL (c : Client) (flatMap : gmap string string)
    (expires : Z) (signingKey_ publicKeyID_ : string)
    (order1 order2 : list string) : string * option Error :=
  let secret := if String.eqb signingKey_ EmptyString then signingKey c else signingKey_ in
  let keyID := if String.eqb publicKeyID_ EmptyString then publicKeyID c else publicKeyID_ in
  if String.eqb secret EmptyString || String.eqb keyID EmptyString then
    (EmptyString,
     Some (mkError
       "Signed URLs require signing_key (rs_secret_*) and public_key_id (rs_pub_*). Pass them to New() or to GenerateURL directly."
       400 CodeInvalidRequest EmptyString 0))
  else
    let signParams := sign_params flatMap order1 expires keyID in
    let queryString := canonical_query signParams order2 in
    let signature := hmac_sha256_hex secret queryString in
    (baseURL (http c) ++ "/v1/screenshot?" ++ queryString ++ "&signature=" ++ signature,
     None).

(** ** webhook.go *)

Module Duration.

Definition Second : Z := 1000000000.

(** [Duration.Seconds]: the whole seconds plus the fraction, in
    [float64]. *)
Definition Seconds (d : Z) : Float64.float64 :=
  let sec := Z.quot d Second in
  let nsec := Z.rem d Second in
  Float64.add (Float64.of_int sec)
              (Float64.div (Float64.of_int nsec) (Float64.of_int 1000000000)).

End Duration.

Definition DefaultTolerance : Z := 300 * Duration.Second.

(** [subtle.ConstantTimeCompare]. *)
Definition ConstantTimeCompare (x y : list Z) : Z :=
  if negb (Nat.eqb (List.length x) (List.length y)) then 0
  else
    let v := fold_left (fun v p => Z.lor v (Z.lxor (fst p) (snd p))) (combine x y) 0 in
    if v =? 0 then 1 else 0.

Definition expected_signature (payload timestamp secret : string) : string :=
  let signedPayload := timestamp ++ "." ++ payload in
  "sha256=" ++ hmac_sha256_hex secret signedPayload.

(** [VerifyWebhook]; [tolerance] is a [time.Duration] in nanoseconds and
    [now] is [time.Now().Unix()]. *)
Definition VerifyWebhook (payload signature timestamp secret : string)
    (tolerance : Z) (now : Z) : bool :=
  if String.eqb payload EmptyString || String.eqb signature EmptyString
     || String.eqb timestamp EmptyString || String.eqb secret EmptyString
  then false
  else
    let tolerance := if tolerance =? 0 then DefaultTolerance else tolerance in
    match Strconv.ParseInt timestamp with
    | None => false
    | Some ts =>
        let age := Int64.sub now ts in
        let age := if age <? 0 then Int64.neg age else age in
        if Float64.to_int64 (Duration.Seconds tolerance) <? age then false
        else
          let expected := expected_signature payload timestamp secret in
          ConstantTimeCompare (bytes_of_string expected) (bytes_of_string signature) =? 1
    end.

(** ** Notions used in the statements *)

(** An attempt that the loop may repeat: it failed with an [Error] that
    is retryable. *)
Definition retryable (r : result) : bool :=
  match r with
  | Failure (ApiError e) => IsRetryable e
  | _ => false
  end.


(** The server of the retry test: two responses of status 500, then a
    response of status 200. *)
Definition flaky_server (n : nat) : exchange :=
  if (n <? 2)%nat then
    Response 500 ∅ "{}"
      (Some {[ "error" := VObject {[ "message" := VString "Internal error";
                                     "code" := VString "internal_error" ]} ]})
  else Response 200 ∅ "{}" (Some {[ "status" := VString "ok" ]}).

(** A server that answers every request with status 401. *)
Definition unauthorized_server (n : nat) : exchange :=
  Response 401 ∅ "{}"
    (Some {[ "error" := VObject {[ "message" := VString "Unauthorized";
                                   "code" := VString "unauthorized" ]} ]}).

(** The age that [VerifyWebhook] compares with the tolerance. *)
Definition timestamp_age (now ts : Z) : Z :=
  let age := Int64.sub now ts in
  if age <? 0 then Int64.neg age else age.

(** The tolerance in whole seconds, as [VerifyWebhook] converts it. *)
Definition tolerance_seconds (tolerance : Z) : Z :=
  Float64.to_int64 (Duration.Seconds tolerance).






(** ** errors.go: the predicates on errors *)

(** The type assertion of an [error] interface value to a pointer to
    [Error]; [None] is the nil interface. *)
Definition as_Error (err : option error) : option Error :=
  match err with
  | Some (ApiError e) => Some e
  | _ => None
  end.

Definition IsNotFound (err : option error) : bool :=
  match as_Error err with
  | None => false
  | Some e => (HTTPStatus e =? 404) || String.eqb (Code e) CodeNotFound
  end.

(** The function [IsRetryable(err error)], beside the method of the same
    name. *)
Definition IsRetryable_error (err : option error) : bool :=
  match as_Error err with
  | None => false
  | Some e => IsRetryable e
  end.

Definition IsRateLimited (err : option error) : bool :=
  match as_Error err with
  | None => false
  | Some e => String.eqb (Code e) CodeRateLimited || (HTTPStatus e =? 429)
  end.

Definition IsAuthentication (err : option error) : bool :=
  match as_Error err with
  | None => false
  | Some e => HTTPStatus e =? 401
  end.

Definition IsValidation (err : option error) : bool :=
  match as_Error err with
  | None => false
  | Some e =>
      (HTTPStatus e =? 400)
      || ((HTTPStatus e =? 422) && negb (String.eqb (Code e) CodeRenderFailed))
  end.

(** ** http.go: construction and the JSON and binary requests *)

Definition defaultBaseURL : string := "https://api.renderscreenshot.com".
Definition defaultTimeout : Z := 30 * Duration.Second.
Definition Version : string := "1.0.0".

(** [strings.TrimRight(s, cutset)] for a cutset of the single byte [c]. *)
Fixpoint TrimRight (s : string) (c : ascii) : string :=
  match s with
  | EmptyString => EmptyString
  | String a rest =>
      match TrimRight rest c with
      | EmptyString => if Ascii.eqb a c then EmptyString else String a EmptyString
      | r => String a r
      end
  end.

(** The fields of [httpClient] that the retry loop does not read, beside
    those it reads. *)
Record httpClientFull : Type := mkHTTPClientFull {
  core : httpClient;
  timeout : Z;
  userAgent : string
}.

Definition newHTTPClient (apiKey_ baseURL_ : string) (timeout_ : Z)
    (maxRetries_ : Z) (retryDelay_ : Float64.float64) : httpClientFull :=
  let baseURL_ := if String.eqb baseURL_ EmptyString then defaultBaseURL else baseURL_ in
  let timeout_ := if timeout_ =? 0 then defaultTimeout else timeout_ in
  let retryDelay_ :=
    if SFeqb retryDelay_ (S754_zero false) then defaultRetryDelay else retryDelay_ in
  {| core := {| apiKey := apiKey_;
                baseURL := TrimRight baseURL_ "/";
                maxRetries := maxRetries_;
                retryDelay := retryDelay_ |};
     timeout := timeout_;
     userAgent := "renderscreenshot-go/" ++ Version |}.

(** The Go results [(T, error)]: the value and the error, [None] for a
    nil map, a nil pointer, a nil slice and a nil error. *)
Section Requests.

(** [json.Unmarshal] into a variable of type [map[string]interface{}]
    that holds the nil map: the map it leaves there, still nil when the
    text is the JSON null, or the text of the error. *)
Variable json_Unmarshal : string -> option (gmap string value) + string.

Variable doRequest : nat -> result.
Variable rand : nat -> Float64.float64.

Definition requestJSON (c : httpClient) (w : world)
    : option (option (gmap string value) * option error * world) :=
  match doWithRetry doRequest rand c w with
  | None => None
  | Some (Failure err, w') => Some (None, Some err, w')
  | Some (Success respBody _, w') =>
      let respBody := default EmptyString respBody in
      if (String.length respBody =? 0)%nat then Some (Some ∅, None, w')
      else
        match json_Unmarshal respBody with
        | inl m => Some (m, None, w')
        | inr _ => Some (Some {[ "body" := VString respBody ]}, None, w')
        end
  end.

(** [httpResponse]: the body and the headers, each possibly nil. *)
Definition requestBinary (c : httpClient) (w : world)
    : option (option (option string * option (gmap string string)) * option error * world) :=
  match doWithRetry doRequest rand c w with
  | None => None
  | Some (Failure err, w') => Some (None, Some err, w')
  | Some (Success respBody respHeaders, w') =>
      Some (Some (respBody, respHeaders), None, w')
  end.

(** [CacheManager.Get] and [CacheManager.Delete], whose requests go
    through [getBinary] and [delete]. *)
Definition CacheManager_Get (c : httpClient) (w : world)
    : option (option string * option error * world) :=
  match requestBinary c w with
  | None => None
  | Some (_, Some err, w') =>
      if IsNotFound (Some err) then Some (None, None, w')
      else Some (None, Some err, w')
  | Some (resp, None, w') =>
      Some (match resp with Some (body, _) => body | None => None end, None, w')
  end.

Definition CacheManager_Delete (c : httpClient) (w : world)
    : option (bool * option error * world) :=
  match requestJSON c w with
  | None => None
  | Some (_, Some err, w') =>
      if IsNotFound (Some err) then Some (false, None, w')
      else Some (false, Some err, w')
  | Some (_, None, w') => Some (true, None, w')
  end.


Definition as_float64 (v : option value) : option Float64.float64 :=
  match v with
  | Some (VNumber f) => Some f
  | _ => None
  end.


End Requests.

(** ** Notions used in the statements about the transport *)

(** The first string of a list that is not empty, the empty string if
    there is none. *)
Fixpoint first_nonempty (l : list string) : string :=
  match l with
  | [] => EmptyString
  | s :: l' => if String.eqb s EmptyString then first_nonempty l' else s
  end.

(** The string at [error.k] of a decoded body, empty when there is none. *)
Definition body_error_field (body : gmap string value) (k : string) : option string :=
  match as_object (body !! "error") with
  | Some errMap => as_string (errMap !! k)
  | None => None
  end.

(** The error of a result, nil for a success. *)
Definition result_error (r : result) : option error :=
  match r with
  | Success _ _ => None
  | Failure err => Some err
  end.

(** The delay the loop sleeps after request [i] failed at attempt
    [attempt]. *)
Definition delay_after (doRequest : nat -> result) (rand : nat -> Float64.float64)
    (c : httpClient) (i : nat) (attempt : Z) : Float64.float64 :=
  match doRequest i with
  | Failure (ApiError e) => calculateDelay c e attempt (rand i)
  | _ => S754_zero false
  end.

(** What the loop returns when its condition fails on entry. *)
Definition fallthrough (lastErr : option error) : result :=
  match lastErr with
  | Some e => Failure e
  | None => Success None None
  end.

(** The decoded body of a response carries no error code. *)
Definition no_body_code (decoded : option (gmap string value)) : Prop :=
  default EmptyString (body_error_field (default ∅ decoded) "code") = EmptyString.

(** The request failed before a response was read. *)
Definition transport_failure (x : exchange) : bool :=
  match x with
  | NewRequestFailed _ | DoFailed _ | ReadFailed _ => true
  | _ => false
  end.

(** The status of the response, when there is one. *)
Definition response_status (x : exchange) : option Z :=
  match x with
  | Response status _ _ _ => Some status
  | _ => None
  end.

(** The transport of a call whose [n]-th exchange is [xs n]. *)
Definition transport (xs : nat -> exchange) (n : nat) : result :=
  doRequest_result (xs n).

(** ** webhook.go: the headers of a webhook request *)

Module WebhookHeaders.

Record t : Type := mk {
  Signature : string;
  Timestamp : string;
  ID : string
}.

End WebhookHeaders.

Fixpoint map_bytes (f : ascii -> ascii) (s : string) : string :=
  match s with
  | EmptyString => EmptyString
  | String a rest => String (f a) (map_bytes f rest)
  end.

(** [strings.ReplaceAll(s, old, new)] for [old] and [new] of one byte
    each. *)
Definition ReplaceAll (s : string) (old new : ascii) : string :=
  map_bytes (fun a => if Ascii.eqb a old then new else a) s.

(** Below [utf8.RuneSelf]. *)
Definition is_ascii_byte (a : ascii) : bool := (N_of_ascii a <? 128)%N.

Fixpoint isASCII (s : string) : bool :=
  match s with
  | EmptyString => true
  | String a rest => is_ascii_byte a && isASCII rest
  end.

Definition lower_byte (a : ascii) : ascii :=
  let c := N_of_ascii a in
  if ((65 <=? c) && (c <=? 90))%N then ascii_of_N (c + 32) else a.

Section Headers.

(** [strings.Map(unicode.ToLower, s)], which [strings.ToLower] applies to
    the strings that are not all ASCII. *)
Variable unicode_ToLower : string -> string.

Definition ToLower (s : string) : string :=
  if isASCII s then map_bytes lower_byte s else unicode_ToLower s.

Definition normalize_key (k : string) : string :=
  ToLower (ReplaceAll k "_" "-").

(** [normalizeHeaders]; [order] is the order in which [range] visits the
    map. *)
Definition normalizeHeaders (headers : gmap string string) (order : list string)
    : gmap string string :=
  fold_left
    (fun result k => match headers !! k with
                     | Some v => <[normalize_key k := v]> result
                     | None => result
                     end)
    order ∅.

Definition ExtractWebhookHeaders (headers : gmap string string) (order : list string)
    : WebhookHeaders.t :=
  let normalized := normalizeHeaders headers order in
  {| WebhookHeaders.Signature := default EmptyString (normalized !! "x-webhook-signature");
     WebhookHeaders.Timestamp := default EmptyString (normalized !! "x-webhook-timestamp");
     WebhookHeaders.ID := default EmptyString (normalized !! "x-webhook-id") |}.

End Headers.

(** ** client.go: construction *)

Record clientConfig : Type := mkClientConfig {
  cfg_baseURL : string;
  cfg_timeout : Z;
  cfg_signingKey : string;
  cfg_publicKeyID : string;
  cfg_maxRetries : Z;
  cfg_retryDelay : Float64.float64
}.

(** A functional option: what it does to the configuration it is handed. *)
Definition Option := clientConfig -> clientConfig.


Definition WithTimeout (v : Z) : Option :=
  fun c => mkClientConfig (cfg_baseURL c) v (cfg_signingKey c) (cfg_publicKeyID c)
             (cfg_maxRetries c) (cfg_retryDelay c).



Definition WithMaxRetries (v : Z) : Option :=
  fun c => mkClientConfig (cfg_baseURL c) (cfg_timeout c) (cfg_signingKey c)
             (cfg_publicKeyID c) v (cfg_retryDelay c).

Definition WithRetryDelay (v : Float64.float64) : Option :=
  fun c => mkClientConfig (cfg_baseURL c) (cfg_timeout c) (cfg_signingKey c)
             (cfg_publicKeyID c) (cfg_maxRetries c) v.

(** The zero value of [clientConfig]. *)
Definition clientConfig0 : clientConfig :=
  mkClientConfig EmptyString 0 EmptyString EmptyString 0 (S754_zero false).

(** [New]: the client and the error.  Beside the client, whose record
    keeps the fields of the transport that the calls read, the result
    carries the transport as [newHTTPClient] built it. *)
Definition New (apiKey_ : string) (opts : list Option)
    : option (Client * httpClientFull) * option Error :=
  if String.eqb apiKey_ EmptyString then
    (None, Some (mkError "Invalid or missing API key" 401 CodeUnauthorized EmptyString 0))
  else
    let cfg := fold_left (fun cfg opt => opt cfg) opts clientConfig0 in
    let h := newHTTPClient apiKey_ (cfg_baseURL cfg) (cfg_timeout cfg)
               (cfg_maxRetries cfg) (cfg_retryDelay cfg) in
    (Some ({| http := core h;
              signingKey := cfg_signingKey cfg;
              publicKeyID := cfg_publicKeyID cfg |}, h),
     None).

(** ** options.go: the options that are signed *)

(** The fields of [TakeOptions] that [toFlatMap] reads; a pointer to a
    bool is an [option]. *)
Record TakeOptions : Type := mkTakeOptions {
  url : string;
  html : string;
  preset : string;
  device : string;
  width : Z;
  height : Z;
  scale : Float64.float64;
  mobile : option bool;
  fullPage : option bool;
  element : string;
  format : string;
  quality : Z;
  waitFor : string;
  delay : Z;
  blockAds : option bool;
  blockTrackers : option bool;
  darkMode : option bool;
  cacheTTL : Z
}.

Definition URL_ (u : string) : TakeOptions :=
  mkTakeOptions u EmptyString EmptyString EmptyString 0 0 (S754_zero false)
    None None EmptyString EmptyString 0 EmptyString 0 None None None 0.

Definition HTML (h : string) : TakeOptions :=
  mkTakeOptions EmptyString h EmptyString EmptyString 0 0 (S754_zero false)
    None None EmptyString EmptyString 0 EmptyString 0 None None None 0.

(** The setter [FullPage(value ...bool)]: true unless a first argument
    says otherwise. *)
Definition FullPage (value : list bool) (o : TakeOptions) : TakeOptions :=
  let v := match value with
           | [] => true
           | b :: _ => b
           end in
  mkTakeOptions (url o) (html o) (preset o) (device o) (width o) (height o) (scale o)
    (mobile o) (Some v) (element o) (format o) (quality o) (waitFor o) (delay o)
    (blockAds o) (blockTrackers o) (darkMode o) (cacheTTL o).

Definition Width (value : Z) (o : TakeOptions) : TakeOptions :=
  mkTakeOptions (url o) (html o) (preset o) (device o) value (height o) (scale o)
    (mobile o) (fullPage o) (element o) (format o) (quality o) (waitFor o) (delay o)
    (blockAds o) (blockTrackers o) (darkMode o) (cacheTTL o).

(** A statement [if cond { result[k] = v }]. *)
Definition set_if (cond : bool) (k v : string) (result : gmap string string)
    : gmap string string :=
  if cond then <[k := v]> result else result.

Definition nonempty (s : string) : bool := negb (String.eqb s EmptyString).
Definition nonzero (n : Z) : bool := negb (n =? 0).

(** The test [p != nil && *p]. *)
Definition is_set (p : option bool) : bool :=
  match p with
  | Some b => b
  | None => false
  end.

Section Flat.

(** [fmt.Sprintf] with the verb g on a [float64]. *)
Variable fmt_g : Float64.float64 -> string.

Definition formatFloat (f : Float64.float64) : string :=
  let s := fmt_g f in
  if negb (Contains s ".") then s ++ ".0" else s.

Definition toFlatMap (o : TakeOptions) : gmap string string :=
  let result : gmap string string := ∅ in
  let result := set_if (nonempty (url o)) "url" (url o) result in
  let result := set_if (nonempty (html o)) "html" (html o) result in
  let result := set_if (nonempty (preset o)) "preset" (preset o) result in
  let result := set_if (nonzero (width o)) "width" (Strconv.FormatInt (width o)) result in
  let result := set_if (nonzero (height o)) "height" (Strconv.FormatInt (height o)) result in
  let result := set_if (nonempty (device o)) "device" (device o) result in
  let result :=
    set_if (negb (SFeqb (scale o) (S754_zero false))) "scale" (formatFloat (scale o)) result in
  let result := set_if (is_set (fullPage o)) "full_page" "true" result in
  let result := set_if (nonempty (element o)) "selector" (element o) result in
  let result := set_if (nonempty (format o)) "format" (format o) result in
  let result := set_if (nonzero (quality o)) "quality" (Strconv.FormatInt (quality o)) result in
  let result := set_if (is_set (mobile o)) "mobile" "true" result in
  let result := set_if (nonempty (waitFor o)) "wait_for" (waitFor o) result in
  let result := set_if (nonzero (delay o)) "delay" (Strconv.FormatInt (delay o)) result in
  let result := set_if (is_set (blockAds o)) "block_ads" "true" result in
  let result := set_if (is_set (blockTrackers o)) "block_trackers" "true" result in
  let result := set_if (is_set (darkMode o)) "dark_mode" "true" result in
  let result := set_if (nonzero (cacheTTL o)) "cache_ttl" (Strconv.FormatInt (cacheTTL o)) result in
  result.

End Flat.

(** The keys that [toFlatMap] may set. *)
Definition flat_keys : list string :=
  ["url"; "html"; "preset"; "width"; "height"; "device"; "scale"; "full_page";
   "selector"; "format"; "quality"; "mobile"; "wait_for"; "delay"; "block_ads";
   "block_trackers"; "dark_mode"; "cache_ttl"].

(** ** types.go: the margins of a PDF *)

Record PDFMargin : Type := mkPDFMargin {
  uniform : string;
  Top : string;
  Right : string;
  Bottom : string;
  Left : string
}.

Definition UniformMargin (v : string) : PDFMargin :=
  mkPDFMargin v EmptyString EmptyString EmptyString EmptyString.

Definition SidesMargin (top right bottom left : string) : PDFMargin :=
  mkPDFMargin EmptyString top right bottom left.

Definition isUniform (m : PDFMargin) : bool := nonempty (uniform m).

(** The dynamic value that [toAPI] returns. *)
Inductive margin_api : Type :=
| MarginNil
| MarginString (s : string)
| MarginMap (m : gmap string string).

Definition toAPI (m : PDFMargin) : margin_api :=
  if isUniform m then MarginString (uniform m)
  else
    let result : gmap string string := ∅ in
    let result := set_if (nonempty (Top m)) "top" (Top m) result in
    let result := set_if (nonempty (Right m)) "right" (Right m) result in
    let result := set_if (nonempty (Bottom m)) "bottom" (Bottom m) result in
    let result := set_if (nonempty (Left m)) "left" (Left m) result in
    if (size result =? 0)%nat then MarginNil else MarginMap result.

(** ** cache.go: the result of a purge *)

Record PurgeResult : Type := mkPurgeResult {
  Purged : Z;
  Keys : list string
}.

Definition as_array (v : option value) : option (list value) :=
  match v with
  | Some (VArray l) => Some l
  | _ => None
  end.

Definition parsePurgeResult (m : gmap string value) : PurgeResult :=
  let purged :=
    match as_float64 (m !! "purged") with
    | Some v => Float64.to_int64 v
    | None => 0
    end in
  let keys :=
    match as_array (m !! "keys") with
    | Some v =>
        fold_left (fun keys k => match as_string (Some k) with
                                 | Some s => (keys ++ [s])%list
                                 | None => keys
                                 end) v []
    | None => []
    end in
  mkPurgeResult purged keys.

(** The last byte of a string. *)
Fixpoint last_byte (s : string) : option ascii :=
  match s with
  | EmptyString => None
  | String a EmptyString => Some a
  | String _ rest => last_byte rest
  end.

(** The string of [n] bytes [c]. *)
Fixpoint replicate_byte (n : nat) (c : ascii) : string :=
  match n with
  | O => EmptyString
  | S n' => String c (replicate_byte n' c)
  end.

(** ** Notions used in the statements about signed URLs *)

(** The value of a hexadecimal digit in upper case. *)
Definition unhex (a : ascii) : option Z :=
  let c := Z.of_N (N_of_ascii a) in
  if (48 <=? c) && (c <=? 57) then Some (c - 48)
  else if (65 <=? c) && (c <=? 70) then Some (c - 55)
  else None.

(** The decoding of a query component: a plus sign is a space, a percent
    sign introduces two hexadecimal digits, every other byte is itself. *)
Fixpoint query_unescape (s : string) : option string :=
  match s with
  | EmptyString => Some EmptyString
  | String a rest =>
      if Ascii.eqb a "%" then
        match rest with
        | String x (String y rest') =>
            match unhex x, unhex y, query_unescape rest' with
            | Some hx, Some hy, Some r =>
                Some (String (ascii_of_N (Z.to_N (16 * hx + hy))) r)
            | _, _, _ => None
            end
        | _ => None
        end
      else
        match query_unescape rest with
        | Some r => Some (String (if Ascii.eqb a "+" then " "%char else a) r)
        | None => None
        end
  end.

(** The bytes that an escaped query component may hold: the unreserved
    ones, the plus sign and the percent sign. *)
Definition query_safe (a : ascii) : bool :=
  negb (URL.shouldEscape (Z.of_N (N_of_ascii a)))
  || Ascii.eqb a "+" || Ascii.eqb a "%".

(** ** http.go: the request that [doRequest] sends *)

(** The URL handed to [http.NewRequest] and the headers set on the
    request; every header is set with [Header.Set], so each key holds one
    value. *)
Record request : Type := mkRequest {
  reqURL : string;
  reqHeader : gmap string string
}.

Section Request.

(** [textproto.CanonicalMIMEHeaderKey], which [Header.Set] applies to the
    key. *)
Variable CanonicalMIMEHeaderKey : string -> string.

Definition Header_Set (h : gmap string string) (k v : string) : gmap string string :=
  <[CanonicalMIMEHeaderKey k := v]> h.

(** The part of [doRequest] that precedes the round trip; [hasBody] says
    that the body is not nil, and [porder] and [horder] are the orders in
    which [range] visits the parameters and the extra headers. *)
Definition doRequest_request (c : httpClientFull) (path : string)
    (params : gmap string string) (porder : list string) (hasBody : bool)
    (extraHeaders : gmap string string) (horder : list string) : request :=
  let reqURL := baseURL (core c) ++ path in
  let reqURL :=
    if (0 <? size params)%nat then
      let parts :=
        fold_left (fun (parts : list string) (k : string) =>
                     match params !! k with
                     | Some v => (parts ++ [(k ++ "=" ++ v)%string])%list
                     | None => parts
                     end) porder [] in
      reqURL ++ "?" ++ Join parts "&"
    else reqURL in
  let h := Header_Set ∅ "Authorization" ("Bearer " ++ apiKey (core c)) in
  let h := Header_Set h "User-Agent" (userAgent c) in
  let h := if hasBody then Header_Set h "Content-Type" "application/json" else h in
  let h :=
    fold_left (fun h k => match extraHeaders !! k with
                          | Some v => Header_Set h k v
                          | None => h
                          end) horder h in
  mkRequest reqURL h.

End Request.

(** * Properties *)

(** ** Known answers of the hash functions *)

Example sha256_abc :
  Hex.EncodeToString (SHA256.Sum256 (bytes_of_string "abc"))
  = "ba7816bf8f01cfea414140de5dae2223b00361a396177a9cb410ff61f20015ad".
Proof. vm_compute. reflexivity. Qed.

(** Test case 2 of RFC 4231. *)
Example hmac_sha256_rfc4231 :
  hmac_sha256_hex "Jefe" "what do ya want for nothing?"
  = "5bdcc146bf60754e6a042426089575c75a003f089d2739839dec58b964ec3843".
Proof. vm_compute. reflexivity. Qed.

(** ** Error classifier *)

(** Case analysis on the comparisons of the status with the constants of
    the inference table; [tac] closes the branches that contradict the
    hypotheses. *)
Ltac status_cases httpStatus tac :=
  repeat match goal with
         | |- context [Z.eqb httpStatus ?n] =>
             destruct (Z.eqb_spec httpStatus n); [tac|]
         end.

(** C2: [IsRetryable] holds exactly for the codes rate_limited, timeout,
    render_failed, internal_error and connection_error and for the statuses
    500 to 599; an error of status 400, 401, 403 or 404 whose code is none
    of the five is not retryable. *)
Theorem IsRetryable_iff (e : Error) :
  (IsRetryable e = true <->
     (Code e = "rate_limited" \/ Code e = "timeout" \/ Code e = "render_failed"
      \/ Code e = "internal_error" \/ Code e = "connection_error")
     \/ 500 <= HTTPStatus e <= 599)
  /\ ((HTTPStatus e = 400 \/ HTTPStatus e = 401 \/ HTTPStatus e = 403
       \/ HTTPStatus e = 404) ->
      ~ (Code e = "rate_limited" \/ Code e = "timeout" \/ Code e = "render_failed"
         \/ Code e = "internal_error" \/ Code e = "connection_error") ->
      IsRetryable e = false).
Proof.
  assert (Hiff : IsRetryable e = true <->
     (Code e = "rate_limited" \/ Code e = "timeout" \/ Code e = "render_failed"
      \/ Code e = "internal_error" \/ Code e = "connection_error")
     \/ 500 <= HTTPStatus e <= 599).
  { unfold IsRetryable, CodeRateLimited, CodeTimeout, CodeRenderFailed,
      CodeInternalError, CodeConnectionError.
    destruct (String.eqb_spec (Code e) "rate_limited") as [->|H1]; [tauto|].
    destruct (String.eqb_spec (Code e) "timeout") as [->|H2]; [tauto|].
    destruct (String.eqb_spec (Code e) "render_failed") as [->|H3]; [tauto|].
    destruct (String.eqb_spec (Code e) "internal_error") as [->|H4]; [tauto|].
    destruct (String.eqb_spec (Code e) "connection_error") as [->|H5]; [tauto|].
    cbn [orb].
    destruct (Z.leb_spec 500 (HTTPStatus e)) as [Hlo|Hlo],
             (Z.ltb_spec (HTTPStatus e) 600) as [Hhi|Hhi];
      cbn [andb]; split; intros Hr; try discriminate; try tauto;
      try (right; lia); destruct Hr as [Hr|Hr]; try tauto; lia. }
  split; [exact Hiff|].
  intros Hst Hcode. apply not_true_is_false. intros E.
  apply Hiff in E. destruct E as [E|E]; [tauto|lia].
Qed.

Lemma IsRetryable_iff_witness :
  IsRetryable (mkError "Not found" 404 "not_found" EmptyString 0) = false.
Proof.
  apply (proj2 (IsRetryable_iff (mkError "Not found" 404 "not_found" EmptyString 0))).
  - cbn. tauto.
  - cbn. intros [H|[H|[H|[H|H]]]]; discriminate H.
Defined.

(** C3: a non-empty string [code] of the body's [error] object becomes the
    code of the error; when every string code supplied is empty (no
    [error] object, no string [code], or the empty string) the code is
    inferred from the status alone, by the table 400 invalid_request,
    401 unauthorized, 403 forbidden, 404 not_found, 408 timeout,
    422 invalid_request, 429 rate_limited, 500 and above internal_error,
    and the other statuses from 400 to 499 leave it empty. *)
Theorem errorFromResponse_code (httpStatus : Z) (body : gmap string value)
    (retryAfter : Z) (requestID : string) :
  let e := errorFromResponse httpStatus body retryAfter requestID in
  (forall errMap c,
      body !! "error" = Some (VObject errMap) ->
      errMap !! "code" = Some (VString c) ->
      c <> EmptyString -> Code e = c)
  /\ ((forall errMap c,
          body !! "error" = Some (VObject errMap) ->
          errMap !! "code" = Some (VString c) -> c = EmptyString) ->
      (httpStatus = 400 -> Code e = "invalid_request")
      /\ (httpStatus = 401 -> Code e = "unauthorized")
      /\ (httpStatus = 403 -> Code e = "forbidden")
      /\ (httpStatus = 404 -> Code e = "not_found")
      /\ (httpStatus = 408 -> Code e = "timeout")
      /\ (httpStatus = 422 -> Code e = "invalid_request")
      /\ (httpStatus = 429 -> Code e = "rate_limited")
      /\ (500 <= httpStatus -> Code e = "internal_error")
      /\ (400 <= httpStatus <= 499 ->
          httpStatus <> 400 -> httpStatus <> 401 -> httpStatus <> 403 ->
          httpStatus <> 404 -> httpStatus <> 408 -> httpStatus <> 422 ->
          httpStatus <> 429 -> Code e = EmptyString)).
Proof.
  cbv zeta. split.
  - intros errMap c Herr Hcode Hne.
    unfold errorFromResponse. rewrite Herr. cbn [as_object].
    rewrite Hcode. cbn [as_string Code].
    destruct (String.eqb_spec c EmptyString) as [->|_]; [contradiction|].
    destruct (as_string (errMap !! "message")), (as_string (errMap !! "request_id"));
      reflexivity.
  - intros Hnone.
    assert (Hcode : Code (errorFromResponse httpStatus body retryAfter requestID)
                    = infer_code httpStatus).
    { unfold errorFromResponse.
      destruct (body !! "error") as [[| | | | |errMap]|] eqn:Herr; cbn [as_object];
        try reflexivity.
      destruct (errMap !! "code") as [[| | |c| |]|] eqn:Hc; cbn [as_string];
        try (destruct (as_string (errMap !! "message")),
                      (as_string (errMap !! "request_id")); reflexivity).
      rewrite (Hnone errMap c eq_refl Hc).
      destruct (as_string (errMap !! "message")), (as_string (errMap !! "request_id"));
        reflexivity. }
    rewrite Hcode. unfold infer_code.
    repeat split; intros; subst; try reflexivity.
    + status_cases httpStatus ltac:(lia).
      destruct (Z.leb_spec 500 httpStatus); [reflexivity|lia].
    + status_cases httpStatus ltac:(lia).
      destruct (Z.leb_spec 500 httpStatus); [lia|reflexivity].
Qed.

Lemma errorFromResponse_code_witness :
  Code (errorFromResponse 422
          {[ "error" := VObject {[ "code" := VString "render_failed" ]} ]}
          0 EmptyString) = "render_failed"
  /\ Code (errorFromResponse 429 ∅ 60 EmptyString) = "rate_limited".
Proof.
  split.
  - apply (proj1 (errorFromResponse_code 422
       {[ "error" := VObject {[ "code" := VString "render_failed" ]} ]}
       0 EmptyString) {[ "code" := VString "render_failed" ]} "render_failed").
    + reflexivity.
    + reflexivity.
    + discriminate.
  - apply (proj2 (errorFromResponse_code 429 ∅ 60 EmptyString)).
    + intros errMap c H. rewrite lookup_empty in H. discriminate H.
    + reflexivity.
Defined.

Lemma errorFromResponse_code_empty_string :
  ~ (forall (httpStatus : Z) (body : gmap string value) (retryAfter : Z)
            (requestID : string) (errMap : gmap string value) (c : string),
        body !! "error" = Some (VObject errMap) ->
        errMap !! "code" = Some (VString c) ->
        Code (errorFromResponse httpStatus body retryAfter requestID) = c).
Proof.
  intros H.
  specialize (H 404 {[ "error" := VObject {[ "code" := VString EmptyString ]} ]}
                0 EmptyString {[ "code" := VString EmptyString ]} EmptyString
                eq_refl eq_refl).
  vm_compute in H. discriminate H.
Qed.

(** C7: with an empty body map, a status of 400, 401, 403, 404, 408, 422,
    429, or of 500 and above, yields the non-empty code of the inference
    table; every other status from 400 to 499 yields the empty code. *)
Theorem errorFromResponse_empty_body (httpStatus retryAfter : Z) (requestID : string) :
  let c := Code (errorFromResponse httpStatus ∅ retryAfter requestID) in
  (httpStatus = 400 -> c = "invalid_request")
  /\ (httpStatus = 401 -> c = "unauthorized")
  /\ (httpStatus = 403 -> c = "forbidden")
  /\ (httpStatus = 404 -> c = "not_found")
  /\ (httpStatus = 408 -> c = "timeout")
  /\ (httpStatus = 422 -> c = "invalid_request")
  /\ (httpStatus = 429 -> c = "rate_limited")
  /\ (500 <= httpStatus -> c = "internal_error")
  /\ (httpStatus = 400 \/ httpStatus = 401 \/ httpStatus = 403 \/ httpStatus = 404
      \/ httpStatus = 408 \/ httpStatus = 422 \/ httpStatus = 429
      \/ 500 <= httpStatus -> c <> EmptyString)
  /\ (400 <= httpStatus <= 499 ->
      httpStatus <> 400 -> httpStatus <> 401 -> httpStatus <> 403 ->
      httpStatus <> 404 -> httpStatus <> 408 -> httpStatus <> 422 ->
      httpStatus <> 429 -> c = EmptyString).
Proof.
  cbv zeta.
  assert (Hcode : Code (errorFromResponse httpStatus ∅ retryAfter requestID)
                  = infer_code httpStatus).
  { unfold errorFromResponse. rewrite lookup_empty. reflexivity. }
  rewrite Hcode. unfold infer_code.
  repeat match goal with
         | |- _ /\ _ => split
         end; intros; subst; try reflexivity.
  - status_cases httpStatus ltac:(lia).
    destruct (Z.leb_spec 500 httpStatus); [reflexivity|lia].
  - status_cases httpStatus ltac:(discriminate).
    destruct (Z.leb_spec 500 httpStatus); [discriminate|lia].
  - status_cases httpStatus ltac:(lia).
    destruct (Z.leb_spec 500 httpStatus); [lia|reflexivity].
Qed.

Lemma errorFromResponse_empty_body_witness :
  Code (errorFromResponse 404 ∅ 0 EmptyString) = "not_found"
  /\ Code (errorFromResponse 503 ∅ 0 EmptyString) = "internal_error"
  /\ Code (errorFromResponse 418 ∅ 0 EmptyString) = EmptyString.
Proof.
  pose proof (errorFromResponse_empty_body 404 0 EmptyString) as H404.
  pose proof (errorFromResponse_empty_body 503 0 EmptyString) as H503.
  pose proof (errorFromResponse_empty_body 418 0 EmptyString) as H418.
  cbv zeta in H404, H503, H418.
  split; [|split].
  - apply H404. reflexivity.
  - apply H503. lia.
  - apply H418; lia.
Defined.

Lemma errorFromResponse_unmapped_status :
  ~ (forall (httpStatus retryAfter : Z) (requestID : string),
        400 <= httpStatus ->
        Code (errorFromResponse httpStatus ∅ retryAfter requestID) <> EmptyString).
Proof.
  intros H. apply (H 402 0 EmptyString); [lia|]. reflexivity.
Qed.

(** ** Decimal numerals *)

Module StrconvFacts.
Import Strconv.

Lemma digit_char_spec (d : Z) :
  0 <= d < 10 -> is_digit (digit_char d) = true /\ digit_val (digit_char d) = d.
Proof.
  intros Hd.
  assert (Hcases : d = 0 \/ d = 1 \/ d = 2 \/ d = 3 \/ d = 4 \/ d = 5 \/ d = 6
                   \/ d = 7 \/ d = 8 \/ d = 9) by lia.
  repeat (destruct Hcases as [-> | Hcases]; [split; reflexivity|]).
  subst d. split; reflexivity.
Qed.

Lemma is_digit_not_sign (c : ascii) :
  is_digit c = true -> Ascii.eqb c "+" = false /\ Ascii.eqb c "-" = false.
Proof.
  intros Hc. split.
  - destruct (Ascii.eqb_spec c "+") as [->|_]; [discriminate Hc|reflexivity].
  - destruct (Ascii.eqb_spec c "-") as [->|_]; [discriminate Hc|reflexivity].
Qed.

Lemma parse_digits_step (a : Z) (d : Z) (s : string) :
  0 <= d < 10 ->
  parse_digits a (String (digit_char d) s) = parse_digits (a * 10 + d) s.
Proof.
  intros Hd. destruct (digit_char_spec d Hd) as [H1 H2].
  cbn [parse_digits]. rewrite H1, H2. reflexivity.
Qed.

(** Parsing undoes formatting, whatever follows the digits. *)
Lemma parse_format_digits (fuel : nat) :
  forall (n : Z) (s : string),
    0 <= n < 10 ^ Z.of_nat fuel ->
    exists p, forall a,
      parse_digits a (format_digits fuel n s) = parse_digits (a * p + n) s.
Proof.
  induction fuel as [|fuel IH]; intros n s Hn.
  - exists 1. intros a. cbn [format_digits].
    replace n with 0 by (cbn in Hn; lia). f_equal. lia.
  - cbn [format_digits].
    destruct (Z.ltb_spec n 10) as [Hlt|Hge].
    + exists 10. intros a. rewrite Z.mod_small by lia.
      apply parse_digits_step. lia.
    + assert (Hdiv : 0 <= n / 10 < 10 ^ Z.of_nat fuel).
      { split; [apply Z.div_pos; lia|].
        apply Z.div_lt_upper_bound; [lia|].
        rewrite Nat2Z.inj_succ, Z.pow_succ_r in Hn by lia. lia. }
      destruct (IH (n / 10) (String (digit_char (n mod 10)) s) Hdiv) as [p Hp].
      exists (p * 10). intros a. rewrite Hp.
      rewrite parse_digits_step by (apply Z.mod_pos_bound; lia).
      f_equal. pose proof (Z.div_mod n 10). lia.
Qed.

Lemma format_digits_head (fuel : nat) :
  forall (n : Z) (s : string),
    0 <= n ->
    exists c rest, format_digits (S fuel) n s = String c rest /\ is_digit c = true.
Proof.
  induction fuel as [|fuel IH]; intros n s Hn.
  - cbn [format_digits].
    exists (digit_char (n mod 10)), s.
    split; [destruct (n <? 10); reflexivity|].
    apply digit_char_spec, Z.mod_pos_bound. lia.
  - change (format_digits (S (S fuel)) n s)
      with (let acc' := String (digit_char (n mod 10)) s in
            if n <? 10 then acc' else format_digits (S fuel) (n / 10) acc').
    cbv zeta. destruct (n <? 10).
    + exists (digit_char (n mod 10)), s. split; [reflexivity|].
      apply digit_char_spec, Z.mod_pos_bound. lia.
    + apply IH. apply Z.div_pos; lia.
Qed.

Lemma fuel_enough (n : Z) :
  0 <= n -> n < 10 ^ Z.of_nat (S (Z.to_nat (Z.log2 n))).
Proof.
  intros Hn. rewrite Nat2Z.inj_succ, Z2Nat.id by apply Z.log2_nonneg.
  destruct (Z.eq_dec n 0) as [->|Hnz]; [cbn; lia|].
  pose proof (Z.log2_spec n ltac:(lia)) as [_ Hub].
  eapply Z.lt_le_trans; [exact Hub|].
  apply Z.pow_le_mono_l. lia.
Qed.

Lemma parse_unsigned_format (n : Z) :
  0 <= n ->
  exists c rest,
    format_digits (S (Z.to_nat (Z.log2 n))) n EmptyString = String c rest
    /\ is_digit c = true
    /\ parse_unsigned (String c rest) = Some n.
Proof.
  intros Hn.
  destruct (format_digits_head (Z.to_nat (Z.log2 n)) n EmptyString Hn)
    as (c & rest & Heq & Hc).
  exists c, rest. split; [exact Heq|]. split; [exact Hc|].
  destruct (parse_format_digits (S (Z.to_nat (Z.log2 n))) n EmptyString) as [p Hp].
  { split; [exact Hn|apply fuel_enough; exact Hn]. }
  unfold parse_unsigned. rewrite <- Heq, Hp. reflexivity.
Qed.

(** [ParseInt] reads back what [fmt.Sprintf("%d", n)] prints. *)
Lemma ParseInt_FormatInt (n : Z) :
  Int64.in_range n = true -> ParseInt (FormatInt n) = Some n.
Proof.
  intros Hr. unfold FormatInt.
  destruct (Z.ltb_spec n 0) as [Hneg|Hpos].
  - destruct (parse_unsigned_format (- n) ltac:(lia)) as (c & rest & Heq & Hc & Hp).
    rewrite Heq. unfold ParseInt.
    change (Ascii.eqb "-" "+") with false. change (Ascii.eqb "-" "-") with true.
    cbv iota beta. rewrite Hp. rewrite Z.opp_involutive, Hr. reflexivity.
  - destruct (parse_unsigned_format n Hpos) as (c & rest & Heq & Hc & Hp).
    rewrite Heq. unfold ParseInt.
    destruct (is_digit_not_sign c Hc) as [-> ->].
    cbv iota beta. rewrite Hp, Hr. reflexivity.
Qed.

Lemma FormatInt_nonempty (n : Z) : FormatInt n <> EmptyString.
Proof.
  unfold FormatInt. destruct (Z.ltb_spec n 0) as [Hneg|Hpos]; [discriminate|].
  destruct (format_digits_head (Z.to_nat (Z.log2 n)) n EmptyString Hpos)
    as (c & rest & Heq & _).
  rewrite Heq. discriminate.
Qed.







End StrconvFacts.

(** ** Transport: the Retry-After header *)




(** ** Request signer *)

Section StringOrder.

Lemma string_compare_le_trans (a : string) :
  forall b c, String.compare a b <> Gt -> String.compare b c <> Gt ->
              String.compare a c <> Gt.
Proof.
  induction a as [|x a IH]; intros [|y b] [|z c]; cbn; try congruence.
  unfold Ascii.compare.
  destruct (N.compare_spec (N_of_ascii x) (N_of_ascii y)) as [Hxy|Hxy|Hxy];
    destruct (N.compare_spec (N_of_ascii y) (N_of_ascii z)) as [Hyz|Hyz|Hyz];
    try congruence; intros H1 H2.
  - rewrite Hxy, Hyz, N.compare_refl. apply (IH b c H1 H2).
  - rewrite Hxy. apply N.compare_lt_iff in Hyz. rewrite Hyz. discriminate.
  - rewrite <- Hyz. apply N.compare_lt_iff in Hxy. rewrite Hxy. discriminate.
  - assert (Hxz : (N_of_ascii x < N_of_ascii z)%N) by lia.
    apply N.compare_lt_iff in Hxz. rewrite Hxz. discriminate.
Qed.

#[global] Instance string_le_trans : Transitive string_le.
Proof.
  intros a b c. unfold string_le, String.leb. intros H1 H2.
  pose proof (string_compare_le_trans a b c) as H.
  destruct (String.compare a b), (String.compare b c), (String.compare a c);
    try discriminate; try reflexivity; exfalso; apply H; congruence.
Qed.

#[global] Instance string_le_total : Total string_le.
Proof. intros a b. apply String.leb_total. Qed.

#[global] Instance string_le_antisymm : AntiSymm (=) string_le.
Proof. intros a b. apply String.leb_antisym. Qed.

End StringOrder.

(** [sort.Strings] depends on the keys it is given, not on their order. *)
Lemma sort_Strings_Permutation (l1 l2 : list string) :
  l1 ≡ₚ l2 -> sort_Strings l1 = sort_Strings l2.
Proof.
  intros Hp. unfold sort_Strings.
  apply (Sorted_unique string_le); try apply Sorted_merge_sort; try apply _.
  rewrite !merge_sort_Permutation. exact Hp.
Qed.

Lemma fold_left_snoc {A} (l : list A) :
  forall acc, fold_left (fun ks k => (ks ++ [k])%list) l acc = (acc ++ l)%list.
Proof.
  induction l as [|x l IH]; intros acc; cbn [fold_left].
  - rewrite app_nil_r. reflexivity.
  - rewrite IH, <- app_assoc. reflexivity.
Qed.

Lemma fold_left_snoc_map {A B} (f : A -> B) (l : list A) :
  forall acc, fold_left (fun ps k => (ps ++ [f k])%list) l acc = (acc ++ List.map f l)%list.
Proof.
  induction l as [|x l IH]; intros acc; cbn [fold_left List.map].
  - rewrite app_nil_r. reflexivity.
  - rewrite IH, <- app_assoc. reflexivity.
Qed.

Lemma canonical_query_eq (signParams : gmap string string) (order : list string) :
  canonical_query signParams order
  = Join (List.map (canonical_part signParams) (sort_Strings order)) "&".
Proof.
  unfold canonical_query. rewrite fold_left_snoc, fold_left_snoc_map. reflexivity.
Qed.

Lemma range_order_elem_of {V} (order : list string) (m : gmap string V) (k : string) :
  range_order order m -> (k ∈ order <-> is_Some (m !! k)).
Proof.
  unfold range_order. intros ->. rewrite list_elem_of_fmap. split.
  - intros [[k' v] [-> Hin]]. apply elem_of_map_to_list in Hin. eauto.
  - intros [v Hv]. exists (k, v). split; [reflexivity|].
    apply elem_of_map_to_list. exact Hv.
Qed.

(** The first [range] loop: entries of [flatMap] override the two preset
    keys, in whatever order they are visited. *)
Lemma merge_loop_lookup (flatMap : gmap string string) (l : list string) :
  forall (acc : gmap string string) (k : string),
    fold_left (fun acc k => match flatMap !! k with
                            | Some v => <[k := v]> acc
                            | None => acc
                            end) l acc !! k
    = match flatMap !! k with
      | Some v => if decide (k ∈ l) then Some v else acc !! k
      | None => acc !! k
      end.
Proof.
  induction l as [|x l IH]; intros acc k; cbn [fold_left].
  - destruct (flatMap !! k); [|reflexivity].
    rewrite decide_False by apply not_elem_of_nil. reflexivity.
  - rewrite IH. destruct (flatMap !! k) as [v|] eqn:Hk.
    + destruct (decide (k ∈ l)) as [Hin|Hnin].
      * rewrite decide_True by (right; exact Hin). reflexivity.
      * destruct (decide (k = x)) as [->|Hne].
        -- rewrite decide_True by left. rewrite Hk, lookup_insert_eq. reflexivity.
        -- rewrite decide_False by (rewrite elem_of_cons; tauto).
           destruct (flatMap !! x); [rewrite lookup_insert_ne by congruence|];
             reflexivity.
    + destruct (flatMap !! x) as [w|] eqn:Hx; [|reflexivity].
      rewrite lookup_insert_ne by congruence. reflexivity.
Qed.

Lemma sign_params_union (flatMap : gmap string string) (order : list string)
    (expires : Z) (keyID : string) :
  range_order order flatMap ->
  sign_params flatMap order expires keyID
  = flatMap ∪ <["key_id" := keyID]> (<["expires" := Strconv.FormatInt expires]> ∅).
Proof.
  intros Hord. apply map_eq. intros k. unfold sign_params.
  rewrite merge_loop_lookup.
  destruct (flatMap !! k) as [v|] eqn:Hk.
  - rewrite decide_True by (apply (range_order_elem_of _ _ _ Hord); eauto).
    symmetry. apply lookup_union_Some_l. exact Hk.
  - symmetry. apply lookup_union_r. exact Hk.
Qed.

(** C9: [GenerateURL] returns an error exactly when the effective signing
    key or the effective public key id (the argument, or the client's
    value when the argument is empty) is empty; the error has status 400
    and code invalid_request, is not retryable, and comes with the empty
    string in place of a URL. *)
Theorem GenerateURL_error_iff (c : Client) (flatMap : gmap string string)
    (expires : Z) (signingKey_ publicKeyID_ : string) (order1 order2 : list string) :
  let secret := if String.eqb signingKey_ EmptyString then signingKey c else signingKey_ in
  let keyID := if String.eqb publicKeyID_ EmptyString then publicKeyID c else publicKeyID_ in
  let r := GenerateURL c flatMap expires signingKey_ publicKeyID_ order1 order2 in
  (snd r <> None <-> secret = EmptyString \/ keyID = EmptyString)
  /\ (forall err, snd r = Some err ->
        Code err = "invalid_request" /\ HTTPStatus err = 400
        /\ IsRetryable err = false /\ fst r = EmptyString).
Proof.
  cbv zeta. unfold GenerateURL.
  set (secret := if String.eqb signingKey_ EmptyString then signingKey c else signingKey_).
  set (keyID := if String.eqb publicKeyID_ EmptyString then publicKeyID c else publicKeyID_).
  destruct (String.eqb_spec secret EmptyString) as [Hs|Hs];
    [|destruct (String.eqb_spec keyID EmptyString) as [Hk|Hk]]; cbn [orb fst snd].
  - split; [split; [tauto|discriminate]|].
    intros err [= <-]. repeat split.
  - split; [split; [tauto|discriminate]|].
    intros err [= <-]. repeat split.
  - split; [|discriminate]. split; [congruence|tauto].
Qed.

Lemma GenerateURL_error_iff_witness :
  let r := GenerateURL
             (mkClient (mkHTTPClient "rs_live_test" "https://api.renderscreenshot.com"
                          0 defaultRetryDelay) EmptyString "rs_pub_test456")
             {[ "url" := "https://example.com" ]} 1700000000
             EmptyString EmptyString ["url"] ["expires"; "key_id"; "url"] in
  snd r <> None
  /\ (forall err, snd r = Some err ->
        Code err = "invalid_request" /\ HTTPStatus err = 400
        /\ IsRetryable err = false /\ fst r = EmptyString).
Proof.
  cbv zeta.
  pose proof (GenerateURL_error_iff
    (mkClient (mkHTTPClient "rs_live_test" "https://api.renderscreenshot.com"
                 0 defaultRetryDelay) EmptyString "rs_pub_test456")
    {[ "url" := "https://example.com" ]} 1700000000
    EmptyString EmptyString ["url"] ["expires"; "key_id"; "url"]) as [Hiff Herr].
  split; [|exact Herr].
  apply Hiff. left. reflexivity.
Defined.

(** C6: the signed URL does not depend on the order in which the two
    [range] loops visit their maps, nor on which of two maps with the same
    key/value pairs is passed: the canonical query lists the keys of the
    parameter set (the flattened options over [expires] and [key_id]) in
    ascending byte order, each as key=value with the value query-escaped,
    joined by ampersands; the signature is the hex HMAC-SHA256 of that
    string under the secret, appended to it in the URL. *)
Theorem GenerateURL_order_independent (c : Client)
    (flatMap flatMap' : gmap string string) (expires : Z)
    (signingKey_ publicKeyID_ : string)
    (order1 order1' order2 order2' : list string) :
  let secret := if String.eqb signingKey_ EmptyString then signingKey c else signingKey_ in
  let keyID := if String.eqb publicKeyID_ EmptyString then publicKeyID c else publicKeyID_ in
  let params : gmap string string :=
    flatMap ∪ <["key_id" := keyID]> (<["expires" := Strconv.FormatInt expires]> ∅) in
  (forall k, flatMap !! k = flatMap' !! k) ->
  range_order order1 flatMap ->
  range_order order1' flatMap' ->
  range_order order2 (sign_params flatMap order1 expires keyID) ->
  range_order order2' (sign_params flatMap' order1' expires keyID) ->
  GenerateURL c flatMap expires signingKey_ publicKeyID_ order1 order2
  = GenerateURL c flatMap' expires signingKey_ publicKeyID_ order1' order2'
  /\ (secret <> EmptyString -> keyID <> EmptyString ->
      exists keys : list string,
        Sorted string_le keys
        /\ keys ≡ₚ (map_to_list params).*1
        /\ let query :=
             Join (List.map
                     (fun k => k ++ "=" ++ URL.QueryEscape (default EmptyString (params !! k)))
                     keys) "&" in
           GenerateURL c flatMap expires signingKey_ publicKeyID_ order1 order2
           = (baseURL (http c) ++ "/v1/screenshot?" ++ query ++ "&signature="
                ++ hmac_sha256_hex secret query,
              None)).
Proof.
  cbv zeta. intros Hsame H1 H1' H2 H2'.
  apply map_eq in Hsame. subst flatMap'.
  set (secret := if String.eqb signingKey_ EmptyString then signingKey c else signingKey_) in *.
  set (keyID := if String.eqb publicKeyID_ EmptyString then publicKeyID c else publicKeyID_) in *.
  rewrite (sign_params_union flatMap order1 expires keyID H1) in H2.
  rewrite (sign_params_union flatMap order1' expires keyID H1') in H2'.
  assert (Hsort : sort_Strings order2 = sort_Strings order2').
  { apply sort_Strings_Permutation. unfold range_order in H2, H2'.
    rewrite H2, H2'. reflexivity. }
  split.
  - unfold GenerateURL. fold secret keyID.
    rewrite (sign_params_union flatMap order1 expires keyID H1).
    rewrite (sign_params_union flatMap order1' expires keyID H1').
    rewrite !canonical_query_eq, Hsort. reflexivity.
  - intros Hs Hk. exists (sort_Strings order2).
    split; [apply Sorted_merge_sort; apply _|].
    split; [unfold sort_Strings; rewrite merge_sort_Permutation; exact H2|].
    cbv zeta. unfold GenerateURL. fold secret keyID.
    destruct (String.eqb_spec secret EmptyString) as [He|_]; [contradiction|].
    destruct (String.eqb_spec keyID EmptyString) as [He|_]; [contradiction|].
    cbn [orb].
    rewrite (sign_params_union flatMap order1 expires keyID H1).
    rewrite canonical_query_eq. reflexivity.
Qed.

Lemma GenerateURL_order_independent_witness :
  let c := mkClient (mkHTTPClient "rs_live_test" "https://api.renderscreenshot.com"
                       0 defaultRetryDelay) "rs_secret_test123" "rs_pub_test456" in
  let flatMap : gmap string string :=
    {[ "url" := "https://example.com"; "preset" := "og_card" ]} in
  GenerateURL c flatMap 1700000000 EmptyString EmptyString
    ["url"; "preset"] ["url"; "key_id"; "preset"; "expires"]
  = GenerateURL c flatMap 1700000000 EmptyString EmptyString
      ["preset"; "url"] ["expires"; "preset"; "url"; "key_id"].
Proof.
  cbv zeta.
  apply (GenerateURL_order_independent
           (mkClient (mkHTTPClient "rs_live_test" "https://api.renderscreenshot.com"
                        0 defaultRetryDelay) "rs_secret_test123" "rs_pub_test456")
           {[ "url" := "https://example.com"; "preset" := "og_card" ]}
           {[ "url" := "https://example.com"; "preset" := "og_card" ]}
           1700000000 EmptyString EmptyString
           ["url"; "preset"] ["preset"; "url"]
           ["url"; "key_id"; "preset"; "expires"]
           ["expires"; "preset"; "url"; "key_id"]).
  - reflexivity.
  - unfold range_order. vm_compute. solve_Permutation.
  - unfold range_order. vm_compute. solve_Permutation.
  - unfold range_order. vm_compute. solve_Permutation.
  - unfold range_order. vm_compute. solve_Permutation.
Defined.

(** ** Transport: the retry loop *)

Section RetryLoop.

Variable doRequest : nat -> result.
Variable rand : nat -> Float64.float64.
Variable c : httpClient.

(** The loop stops at the first attempt that is not a retryable failure,
    and returns what that attempt returned. *)
Lemma retry_loop_terminal (k : nat) :
  forall (fuel : nat) (attempt : Z) (lastErr : option error) (w : world),
    (forall i, (i < k)%nat -> retryable (doRequest (calls w + i)) = true) ->
    retryable (doRequest (calls w + k)) = false ->
    attempt + Z.of_nat k <= maxRetries c ->
    (k < fuel)%nat ->
    exists sl,
      retry_loop doRequest rand fuel c attempt lastErr w
      = Some (doRequest (calls w + k), mkWorld (S (calls w + k)) sl).
Proof.
  induction k as [|k IH]; intros fuel attempt lastErr w Hbefore Hlast Hle Hfuel.
  - destruct fuel as [|fuel]; [lia|]. cbn [retry_loop].
    destruct (Z.leb_spec attempt (maxRetries c)) as [_|Hgt]; [|lia].
    rewrite Nat.add_0_r in *.
    destruct (doRequest (calls w)) as [b h|[e|msg]]; cbn [retryable] in Hlast.
    + exists (slept w). reflexivity.
    + rewrite Hlast. cbn [negb orb]. exists (slept w). reflexivity.
    + exists (slept w). reflexivity.
  - destruct fuel as [|fuel]; [lia|]. cbn [retry_loop].
    destruct (Z.leb_spec attempt (maxRetries c)) as [_|Hgt]; [|lia].
    pose proof (Hbefore 0%nat ltac:(lia)) as H0. rewrite Nat.add_0_r in H0.
    destruct (doRequest (calls w)) as [b h|[e|msg]]; cbn [retryable] in H0;
      try discriminate H0.
    rewrite H0. cbn [negb orb].
    destruct (Z.leb_spec (maxRetries c) attempt) as [Hge|_]; [lia|].
    set (w2 := mkWorld _ _).
    destruct (IH fuel (attempt + 1) (Some (ApiError e)) w2) as [sl Hsl].
    + intros i Hi. cbn [calls w2].
      replace (S (calls w) + i)%nat with (calls w + S i)%nat by lia.
      apply Hbefore. lia.
    + cbn [calls w2].
      replace (S (calls w) + k)%nat with (calls w + S k)%nat by lia. exact Hlast.
    + lia.
    + lia.
    + exists sl. rewrite Hsl. cbn [calls w2].
      replace (S (calls w) + k)%nat with (calls w + S k)%nat by lia. reflexivity.
Qed.

(** When every attempt allowed fails retryably, the loop returns the error
    of the last one. *)
Lemma retry_loop_exhausted (k : nat) :
  forall (fuel : nat) (attempt : Z) (lastErr : option error) (w : world),
    (forall i, (i <= k)%nat -> retryable (doRequest (calls w + i)) = true) ->
    attempt + Z.of_nat k = maxRetries c ->
    (k < fuel)%nat ->
    exists sl,
      retry_loop doRequest rand fuel c attempt lastErr w
      = Some (doRequest (calls w + k), mkWorld (S (calls w + k)) sl).
Proof.
  induction k as [|k IH]; intros fuel attempt lastErr w Hall Heq Hfuel;
    (destruct fuel as [|fuel]; [lia|]); cbn [retry_loop];
    (destruct (Z.leb_spec attempt (maxRetries c)) as [_|Hgt]; [|lia]);
    pose proof (Hall 0%nat ltac:(lia)) as H0; rewrite Nat.add_0_r in H0;
    (destruct (doRequest (calls w)) as [b h|[e|msg]] eqn:Hreq; cbn [retryable] in H0;
      try discriminate H0);
    rewrite H0; cbn [negb orb].
  - destruct (Z.leb_spec (maxRetries c) attempt) as [_|Hlt]; [|lia].
    exists (slept w). rewrite Nat.add_0_r, Hreq. reflexivity.
  - destruct (Z.leb_spec (maxRetries c) attempt) as [Hge|_]; [lia|].
    set (w2 := mkWorld _ _).
    destruct (IH fuel (attempt + 1) (Some (ApiError e)) w2) as [sl Hsl].
    + intros i Hi. cbn [calls w2].
      replace (S (calls w) + i)%nat with (calls w + S i)%nat by lia.
      apply Hall. lia.
    + lia.
    + lia.
    + exists sl. rewrite Hsl. cbn [calls w2].
      replace (S (calls w) + k)%nat with (calls w + S k)%nat by lia. reflexivity.
Qed.

Lemma first_terminal (n : nat) :
  (forall i, (i <= n)%nat -> retryable (doRequest i) = true)
  \/ exists k, (k <= n)%nat
       /\ (forall i, (i < k)%nat -> retryable (doRequest i) = true)
       /\ retryable (doRequest k) = false.
Proof.
  induction n as [|n [Hall|(k & Hk & Hbefore & Hlast)]].
  - destruct (retryable (doRequest 0)) eqn:H0.
    + left. intros i Hi. replace i with 0%nat by lia. exact H0.
    + right. exists 0%nat. split; [lia|]. split; [intros i Hi; lia|exact H0].
  - destruct (retryable (doRequest (S n))) eqn:HS.
    + left. intros i Hi. destruct (Nat.eq_dec i (S n)) as [->|Hne]; [exact HS|].
      apply Hall. lia.
    + right. exists (S n). split; [lia|]. split; [|exact HS].
      intros i Hi. apply Hall. lia.
  - right. exists k. split; [lia|]. split; assumption.
Qed.

Lemma doWithRetry_terminal (k : nat) :
  Z.of_nat k <= maxRetries c ->
  (forall i, (i < k)%nat -> retryable (doRequest i) = true) ->
  retryable (doRequest k) = false ->
  exists w, doWithRetry doRequest rand c world0 = Some (doRequest k, w)
            /\ calls w = S k.
Proof.
  intros Hk Hbefore Hlast. unfold doWithRetry.
  destruct (retry_loop_terminal k (S (Z.to_nat (maxRetries c + 1))) 0 None world0)
    as [sl Hsl]; cbn [calls world0]; try assumption; try lia.
  exists (mkWorld (S k) sl). split; [exact Hsl|reflexivity].
Qed.

Lemma doWithRetry_exhausted :
  0 <= maxRetries c ->
  (forall i, Z.of_nat i <= maxRetries c -> retryable (doRequest i) = true) ->
  exists w, doWithRetry doRequest rand c world0
            = Some (doRequest (Z.to_nat (maxRetries c)), w)
            /\ Z.of_nat (calls w) = maxRetries c + 1.
Proof.
  intros Hpos Hall. unfold doWithRetry.
  destruct (retry_loop_exhausted (Z.to_nat (maxRetries c))
              (S (Z.to_nat (maxRetries c + 1))) 0 None world0)
    as [sl Hsl]; cbn [calls world0]; try lia.
  - intros i Hi. apply Hall. lia.
  - exists (mkWorld (S (Z.to_nat (maxRetries c))) sl).
    split; [exact Hsl|]. cbn [calls]. lia.
Qed.

End RetryLoop.

(** C4: for a retry bound that is not negative, the loop returns the
    result of the first attempt that is not a retryable failure (a success,
    an error that is not an [Error], or an [Error] that is not retryable)
    right after that attempt, so such a first attempt means exactly one
    attempt whatever the bound; it never makes more than [maxRetries + 1]
    attempts; and with a bound of 3, two retryable failures and then a
    success make exactly three attempts and return the success. *)
Theorem doWithRetry_attempts (doRequest : nat -> result)
    (rand : nat -> Float64.float64) (c : httpClient) :
  0 <= maxRetries c ->
  (exists r w,
      doWithRetry doRequest rand c world0 = Some (r, w)
      /\ (1 <= calls w)%nat /\ Z.of_nat (calls w) <= maxRetries c + 1
      /\ r = doRequest (calls w - 1)%nat)
  /\ (forall k : nat,
        Z.of_nat k <= maxRetries c ->
        (forall i, (i < k)%nat -> retryable (doRequest i) = true) ->
        retryable (doRequest k) = false ->
        exists w, doWithRetry doRequest rand c world0 = Some (doRequest k, w)
                  /\ calls w = S k)
  /\ (forall respBody respHeaders,
        doRequest 0%nat = Success respBody respHeaders ->
        exists w, doWithRetry doRequest rand c world0
                  = Some (Success respBody respHeaders, w) /\ calls w = 1%nat)
  /\ (forall err,
        doRequest 0%nat = Failure err ->
        match err with
        | ApiError e => IsRetryable e = false
        | OtherError _ => True
        end ->
        exists w, doWithRetry doRequest rand c world0 = Some (Failure err, w)
                  /\ calls w = 1%nat)
  /\ (maxRetries c = 3 ->
      forall e1 e2 respBody respHeaders,
        doRequest 0%nat = Failure (ApiError e1) -> IsRetryable e1 = true ->
        doRequest 1%nat = Failure (ApiError e2) -> IsRetryable e2 = true ->
        doRequest 2%nat = Success respBody respHeaders ->
        exists w, doWithRetry doRequest rand c world0
                  = Some (Success respBody respHeaders, w) /\ calls w = 3%nat).
Proof.
  intros Hpos.
  assert (Hterm := doWithRetry_terminal doRequest rand c).
  split; [|split; [exact Hterm|split; [|split]]].
  - destruct (first_terminal doRequest (Z.to_nat (maxRetries c)))
      as [Hall|(k & Hk & Hbefore & Hlast)].
    + destruct (doWithRetry_exhausted doRequest rand c Hpos) as (w & Hw & Hc).
      { intros i Hi. apply Hall. lia. }
      exists (doRequest (Z.to_nat (maxRetries c))), w.
      split; [exact Hw|]. split; [lia|]. split; [lia|].
      f_equal. lia.
    + destruct (Hterm k ltac:(lia) Hbefore Hlast) as (w & Hw & Hc).
      exists (doRequest k), w. split; [exact Hw|]. rewrite Hc.
      split; [lia|]. split; [lia|]. f_equal. lia.
  - intros b h H0.
    destruct (Hterm 0%nat ltac:(lia)) as (w & Hw & Hc).
    + intros i Hi. lia.
    + rewrite H0. reflexivity.
    + exists w. rewrite <- H0. split; assumption.
  - intros err H0 Hnr.
    destruct (Hterm 0%nat ltac:(lia)) as (w & Hw & Hc).
    + intros i Hi. lia.
    + rewrite H0. destruct err; [exact Hnr|reflexivity].
    + exists w. rewrite <- H0. split; assumption.
  - intros H3 e1 e2 b h H0 He1 H1 He2 H2.
    destruct (Hterm 2%nat ltac:(lia)) as (w & Hw & Hc).
    + intros i Hi.
      assert (Hi' : i = 0%nat \/ i = 1%nat) by lia.
      destruct Hi' as [->| ->]; [rewrite H0|rewrite H1]; assumption.
    + rewrite H2. reflexivity.
    + exists w. rewrite <- H2. split; assumption.
Qed.

Lemma doWithRetry_attempts_witness :
  let c := mkHTTPClient "test_key" "http://127.0.0.1" 3 (Float64.div (Float64.of_int 1) (Float64.of_int 100)) in
  (exists w, doWithRetry (fun n => doRequest_result (flaky_server n)) (fun _ => Float64.half)
               c world0
             = Some (Success (Some "{}") (Some ∅), w) /\ calls w = 3%nat)
  /\ (exists w, doWithRetry (fun n => doRequest_result (unauthorized_server n))
                  (fun _ => Float64.half) c world0
                = Some (doRequest_result (unauthorized_server 0), w) /\ calls w = 1%nat).
Proof.
  cbv zeta. split.
  - destruct (doWithRetry_attempts (fun n => doRequest_result (flaky_server n))
                (fun _ => Float64.half)
                (mkHTTPClient "test_key" "http://127.0.0.1" 3
                   (Float64.div (Float64.of_int 1) (Float64.of_int 100))))
      as (_ & _ & _ & _ & H3); [cbn; lia|].
    apply (H3 eq_refl
             (errorFromResponse 500
                {[ "error" := VObject {[ "message" := VString "Internal error";
                                         "code" := VString "internal_error" ]} ]} 0 EmptyString)
             (errorFromResponse 500
                {[ "error" := VObject {[ "message" := VString "Internal error";
                                         "code" := VString "internal_error" ]} ]} 0 EmptyString));
      reflexivity.
  - destruct (doWithRetry_attempts (fun n => doRequest_result (unauthorized_server n))
                (fun _ => Float64.half)
                (mkHTTPClient "test_key" "http://127.0.0.1" 3
                   (Float64.div (Float64.of_int 1) (Float64.of_int 100))))
      as (_ & _ & _ & H1 & _); [cbn; lia|].
    apply H1; reflexivity.
Defined.

Lemma doWithRetry_negative_bound :
  ~ (forall (doRequest : nat -> result) (rand : nat -> Float64.float64)
            (c : httpClient) (e : Error),
        doRequest 0%nat = Failure (ApiError e) -> IsRetryable e = false ->
        exists w, doWithRetry doRequest rand c world0 = Some (Failure (ApiError e), w)
                  /\ calls w = 1%nat).
Proof.
  intros H.
  destruct (H (fun n => doRequest_result (unauthorized_server n))
              (fun _ => Float64.half)
              (mkHTTPClient "test_key" "http://127.0.0.1" (-1) defaultRetryDelay)
              (errorFromResponse 401
                 {[ "error" := VObject {[ "message" := VString "Unauthorized";
                                          "code" := VString "unauthorized" ]} ]} 0 EmptyString)
              eq_refl eq_refl) as (w & Hw & _).
  vm_compute in Hw. discriminate Hw.
Qed.

(** ** Conversions between integers and [float64] *)

Module Float64Facts.

Lemma digits2_pos_bounds (p : positive) :
  2 ^ (Z.pos (digits2_pos p) - 1) <= Z.pos p < 2 ^ Z.pos (digits2_pos p).
Proof.
  induction p as [p IH|p IH|]; cbn [digits2_pos].
  - rewrite Pos2Z.inj_succ.
    replace (Z.succ (Z.pos (digits2_pos p)) - 1)
      with (Z.succ (Z.pos (digits2_pos p) - 1)) by lia.
    rewrite !Z.pow_succ_r by lia. lia.
  - rewrite Pos2Z.inj_succ.
    replace (Z.succ (Z.pos (digits2_pos p)) - 1)
      with (Z.succ (Z.pos (digits2_pos p) - 1)) by lia.
    rewrite !Z.pow_succ_r by lia. lia.
  - cbn. lia.
Qed.

Lemma iter_xO_spec (k p : positive) :
  Z.pos (Pos.iter xO p k) = Z.pos p * 2 ^ Z.pos k
  /\ digits2_pos (Pos.iter xO p k) = (digits2_pos p + k)%positive.
Proof.
  induction k as [|k IH] using Pos.peano_ind.
  - cbn [Pos.iter]. split; [lia|]. cbn [digits2_pos]. lia.
  - rewrite Pos.iter_succ. destruct IH as [IH1 IH2]. split.
    + rewrite Pos2Z.inj_xO, IH1, Pos2Z.inj_succ, Z.pow_succ_r by lia. lia.
    + cbn [digits2_pos]. rewrite IH2. lia.
Qed.

(** A mantissa of 53 bits with an exponent in range needs no rounding. *)
Lemma binary_round_aux_canonical (s : bool) (m : positive) (e : Z) :
  Z.pos (digits2_pos m) = 53 -> -1074 <= e <= 971 ->
  binary_round_aux Float64.prec Float64.emax s (Z.pos m) e loc_Exact
  = S754_finite s m e.
Proof.
  intros Hd He.
  assert (Hshift : forall l, shr_fexp Float64.prec Float64.emax (Z.pos m) e l
                             = (shr_record_of_loc (Z.pos m) l, e)).
  { intros l. unfold shr_fexp. cbn [Zdigits2]. rewrite Hd.
    unfold fexp, emin, Float64.prec, Float64.emax.
    replace (Z.max (53 + e - 53) (3 - 1024 - 53) - e) with 0 by lia.
    reflexivity. }
  unfold binary_round_aux. rewrite Hshift.
  cbn [shr_record_of_loc shr_m loc_of_shr_record round_nearest_even].
  rewrite Hshift. cbn [shr_record_of_loc shr_m].
  unfold Float64.prec, Float64.emax.
  destruct (Z.leb_spec e (1024 - 53)); [reflexivity|lia].
Qed.

Lemma binary_round_small (s : bool) (p : positive) :
  Z.pos p < 2 ^ 53 ->
  exists m e, binary_round Float64.prec Float64.emax s p 0 = S754_finite s m e
              /\ -52 <= e <= 0 /\ Z.pos m = Z.pos p * 2 ^ (- e).
Proof.
  intros Hp.
  pose proof (digits2_pos_bounds p) as [Hlo Hhi].
  assert (Hd : Z.pos (digits2_pos p) <= 53).
  { destruct (Z.le_gt_cases (Z.pos (digits2_pos p)) 53) as [H|H]; [exact H|].
    exfalso.
    assert (2 ^ 53 <= 2 ^ (Z.pos (digits2_pos p) - 1)) by (apply Z.pow_le_mono_r; lia).
    lia. }
  unfold binary_round.
  unfold fexp at 1, emin, Float64.prec at 1 2, Float64.emax at 1.
  rewrite Z.add_0_r.
  replace (Z.max (Z.pos (digits2_pos p) - 53) (3 - 1024 - 53))
    with (Z.pos (digits2_pos p) - 53) by lia.
  unfold shl_align. rewrite Z.sub_0_r.
  destruct (Z.pos (digits2_pos p) - 53) as [|k|k] eqn:Hk; [|lia|].
  - exists p, 0. split; [apply binary_round_aux_canonical; lia|]. split; [lia|].
    cbn. lia.
  - destruct (iter_xO_spec k p) as [Hv Hdig].
    exists (Pos.iter xO p k), (Z.neg k).
    split; [apply binary_round_aux_canonical; [rewrite Hdig|]; lia|].
    split; [lia|]. rewrite Hv. reflexivity.
Qed.


(** Converting back yields the integer. *)
Lemma to_int64_of_int (n : Z) :
  - 2 ^ 53 < n < 2 ^ 53 -> Float64.to_int64 (Float64.of_int n) = n.
Proof.
  intros Hn. unfold Float64.of_int, binary_normalize.
  destruct n as [|p|p]; [reflexivity| |].
  - destruct (binary_round_small false p) as (m & e & -> & He & Hm); [lia|].
    unfold Float64.to_int64. rewrite Hm.
    assert (Hmag : (if 0 <=? e then (Z.pos p * 2 ^ (- e)) * 2 ^ e
                    else (Z.pos p * 2 ^ (- e)) / 2 ^ (- e)) = Z.pos p).
    { destruct (Z.leb_spec 0 e) as [H0|H0].
      - replace e with 0 by lia. cbn. lia.
      - apply Z.div_mul. apply Z.pow_nonzero; lia. }
    rewrite Hmag. unfold Int64.in_range, Int64.min_int, Int64.max_int.
    destruct (Z.leb_spec (- 2 ^ 63) (Z.pos p)), (Z.leb_spec (Z.pos p) (2 ^ 63 - 1));
      cbn [andb]; lia.
  - destruct (binary_round_small true p) as (m & e & -> & He & Hm); [lia|].
    unfold Float64.to_int64. rewrite Hm.
    assert (Hmag : (if 0 <=? e then (Z.pos p * 2 ^ (- e)) * 2 ^ e
                    else (Z.pos p * 2 ^ (- e)) / 2 ^ (- e)) = Z.pos p).
    { destruct (Z.leb_spec 0 e) as [H0|H0].
      - replace e with 0 by lia. cbn. lia.
      - apply Z.div_mul. apply Z.pow_nonzero; lia. }
    rewrite Hmag. unfold Int64.in_range, Int64.min_int, Int64.max_int.
    destruct (Z.leb_spec (- 2 ^ 63) (- Z.pos p)), (Z.leb_spec (- Z.pos p) (2 ^ 63 - 1));
      cbn [andb]; lia.
Qed.

(** A duration of a whole number of seconds converts to that number. *)
Lemma to_int64_Seconds_whole (s : Z) :
  - 2 ^ 53 < s < 2 ^ 53 ->
  Float64.to_int64 (Duration.Seconds (s * Duration.Second)) = s.
Proof.
  intros Hs. unfold Duration.Seconds.
  rewrite Z.quot_mul, Z.rem_mul by (unfold Duration.Second; lia).
  change (Float64.div (Float64.of_int 0) (Float64.of_int 1000000000))
    with (S754_zero false).
  rewrite <- (to_int64_of_int s Hs) at 2. f_equal.
  unfold Float64.of_int, binary_normalize.
  destruct s as [|p|p]; [reflexivity| |].
  - destruct (binary_round_small false p) as (m & e & -> & _); [lia|reflexivity].
  - destruct (binary_round_small true p) as (m & e & -> & _); [lia|reflexivity].
Qed.

(** *** Rounding keeps a magnitude of at least one *)


















End Float64Facts.

(** ** Transport: the delay before a retry *)





(** ** Webhook verifier *)

Section ConstantTime.

Lemma fold_lor_zero (l : list (Z * Z)) :
  forall v, fold_left (fun v p => Z.lor v (Z.lxor (fst p) (snd p))) l v = 0
            <-> v = 0 /\ Forall (fun p => fst p = snd p) l.
Proof.
  induction l as [|[a b] l IH]; intros v; cbn [fold_left fst snd].
  - split; [intros ->; split; [reflexivity|constructor]|intros [H _]; exact H].
  - rewrite IH, Z.lor_eq_0_iff, Z.lxor_eq_0_iff, Forall_cons. cbn [fst snd]. tauto.
Qed.

Lemma combine_all_eq (x : list Z) :
  forall y, List.length x = List.length y ->
            (Forall (fun p => fst p = snd p) (combine x y) <-> x = y).
Proof.
  induction x as [|a x IH]; intros [|b y] Hlen; try discriminate Hlen; cbn [combine].
  - split; [reflexivity|constructor].
  - injection Hlen as Hlen. rewrite Forall_cons, (IH y Hlen). cbn [fst snd].
    split; [intros [-> ->]; reflexivity|intros [= -> ->]; split; reflexivity].
Qed.

(** [subtle.ConstantTimeCompare] decides equality. *)
Lemma ConstantTimeCompare_eq (x y : list Z) :
  ConstantTimeCompare x y = 1 <-> x = y.
Proof.
  unfold ConstantTimeCompare.
  destruct (Nat.eqb_spec (List.length x) (List.length y)) as [Hlen|Hlen]; cbn [negb].
  - destruct (Z.eqb_spec (fold_left (fun v p => Z.lor v (Z.lxor (fst p) (snd p)))
                            (combine x y) 0) 0) as [H0|H0].
    + apply fold_lor_zero in H0. destruct H0 as [_ H0].
      apply (combine_all_eq x y Hlen) in H0. tauto.
    + split; [discriminate|]. intros Heq. exfalso. apply H0.
      apply fold_lor_zero. split; [reflexivity|].
      apply (combine_all_eq x y Hlen). exact Heq.
  - split; [discriminate|]. intros ->. contradiction.
Qed.

Lemma bytes_of_string_inj (a b : string) :
  bytes_of_string a = bytes_of_string b -> a = b.
Proof.
  revert b. induction a as [|c a IH]; intros [|d b] H; try discriminate H.
  - reflexivity.
  - unfold bytes_of_string in H. cbn [list_ascii_of_string List.map] in H.
    injection H as Hc Hrest. f_equal.
    + apply N2Z.inj in Hc.
      rewrite <- (ascii_N_embedding c), <- (ascii_N_embedding d), Hc. reflexivity.
    + apply IH. exact Hrest.
Qed.

End ConstantTime.

Lemma wrap_in_range (z : Z) :
  Int64.min_int <= z <= Int64.max_int -> Int64.wrap z = z.
Proof.
  unfold Int64.wrap, Int64.min_int, Int64.max_int. intros Hz.
  rewrite Z.mod_small; lia.
Qed.

(** Without overflow the age is the distance between the two times. *)
Lemma timestamp_age_abs (now ts : Z) :
  Z.abs (now - ts) < 2 ^ 63 -> timestamp_age now ts = Z.abs (now - ts).
Proof.
  intros Habs. unfold timestamp_age, Int64.sub, Int64.neg.
  rewrite (wrap_in_range (now - ts)) by (unfold Int64.min_int, Int64.max_int; lia).
  destruct (Z.ltb_spec (now - ts) 0).
  - rewrite wrap_in_range by (unfold Int64.min_int, Int64.max_int; lia). lia.
  - lia.
Qed.


Lemma VerifyWebhook_unfold (payload signature timestamp secret : string)
    (tolerance now : Z) :
  payload <> EmptyString -> signature <> EmptyString ->
  timestamp <> EmptyString -> secret <> EmptyString ->
  VerifyWebhook payload signature timestamp secret tolerance now
  = match Strconv.ParseInt timestamp with
    | None => false
    | Some ts =>
        if tolerance_seconds (if tolerance =? 0 then DefaultTolerance else tolerance)
           <? timestamp_age now ts
        then false
        else ConstantTimeCompare
               (bytes_of_string (expected_signature payload timestamp secret))
               (bytes_of_string signature) =? 1
    end.
Proof.
  intros Hp Hs Ht Hk. unfold VerifyWebhook.
  destruct (String.eqb_spec payload EmptyString); [contradiction|].
  destruct (String.eqb_spec signature EmptyString); [contradiction|].
  destruct (String.eqb_spec timestamp EmptyString); [contradiction|].
  destruct (String.eqb_spec secret EmptyString); [contradiction|].
  reflexivity.
Qed.

(** What [VerifyWebhook] accepts, in terms of the age and of the tolerance
    in whole seconds. *)
Lemma VerifyWebhook_accepts (payload signature timestamp secret : string)
    (tolerance now : Z) :
  payload <> EmptyString -> signature <> EmptyString ->
  timestamp <> EmptyString -> secret <> EmptyString ->
  (VerifyWebhook payload signature timestamp secret tolerance now = true
   <-> exists ts,
         Strconv.ParseInt timestamp = Some ts
         /\ timestamp_age now ts
            <= tolerance_seconds (if tolerance =? 0 then DefaultTolerance else tolerance)
         /\ signature = expected_signature payload timestamp secret).
Proof.
  intros Hp Hs Ht Hk. rewrite VerifyWebhook_unfold by assumption.
  destruct (Strconv.ParseInt timestamp) as [ts|].
  - destruct (Z.ltb_spec
                (tolerance_seconds (if tolerance =? 0 then DefaultTolerance else tolerance))
                (timestamp_age now ts)) as [Hlt|Hge].
    + split; [discriminate|]. intros (ts' & [= <-] & Hle & _). lia.
    + rewrite Z.eqb_eq, ConstantTimeCompare_eq. split.
      * intros Heq. apply bytes_of_string_inj in Heq.
        exists ts. split; [reflexivity|]. split; [exact Hge|]. symmetry. exact Heq.
      * intros (ts' & _ & _ & ->). reflexivity.
  - split; [discriminate|]. intros (ts' & Hts & _). discriminate Hts.
Qed.

Lemma VerifyWebhook_empty (payload signature timestamp secret : string)
    (tolerance now : Z) :
  payload = EmptyString \/ signature = EmptyString
  \/ timestamp = EmptyString \/ secret = EmptyString ->
  VerifyWebhook payload signature timestamp secret tolerance now = false.
Proof.
  unfold VerifyWebhook. intros [-> | [-> | [-> | ->]]]; cbn [String.eqb orb];
    rewrite ?orb_true_r; reflexivity.
Qed.


(** A timestamp exactly 2^63 seconds before the verification time passes
    the age check under the default tolerance: the difference overflows to
    the least [int64], which its negation leaves unchanged and which no
    tolerance is below. *)
Lemma VerifyWebhook_abs_overflow (payload secret : string) (now : Z) :
  payload <> EmptyString -> secret <> EmptyString ->
  0 <= now <= Int64.max_int ->
  let timestamp := Strconv.FormatInt (now - 2 ^ 63) in
  VerifyWebhook payload (expected_signature payload timestamp secret)
    timestamp secret DefaultTolerance now = true.
Proof.
  intros Hp Hs Hnow timestamp.
  apply VerifyWebhook_accepts; try assumption.
  - discriminate.
  - apply StrconvFacts.FormatInt_nonempty.
  - exists (now - 2 ^ 63). split; [|split; [|reflexivity]].
    + apply StrconvFacts.ParseInt_FormatInt.
      unfold Int64.in_range, Int64.min_int, Int64.max_int in *.
      destruct (Z.leb_spec (- 2 ^ 63) (now - 2 ^ 63)),
               (Z.leb_spec (now - 2 ^ 63) (2 ^ 63 - 1)); cbn [andb]; lia.
    + replace (timestamp_age now (now - 2 ^ 63)) with (- 2 ^ 63).
      * vm_compute. discriminate.
      * unfold timestamp_age, Int64.sub.
        replace (now - (now - 2 ^ 63)) with (2 ^ 63) by lia. reflexivity.
Qed.

(** With a tolerance of a whole number of seconds and a timestamp less
    than 2^63 seconds from the verification time, [VerifyWebhook] accepts
    exactly the timestamps within the tolerance that carry the expected
    signature. *)
Lemma VerifyWebhook_whole_seconds (payload signature timestamp secret : string)
    (seconds now ts : Z) :
  payload <> EmptyString -> signature <> EmptyString ->
  timestamp <> EmptyString -> secret <> EmptyString ->
  0 < seconds < 2 ^ 53 ->
  Strconv.ParseInt timestamp = Some ts ->
  Z.abs (now - ts) < 2 ^ 63 ->
  (VerifyWebhook payload signature timestamp secret (seconds * Duration.Second) now = true
   <-> Z.abs (now - ts) <= seconds
       /\ signature = expected_signature payload timestamp secret).
Proof.
  intros Hp Hs Ht Hk Hsec Hparse Habs.
  rewrite VerifyWebhook_accepts by assumption.
  assert (Hz : (seconds * Duration.Second =? 0) = false).
  { apply Z.eqb_neq. unfold Duration.Second. lia. }
  rewrite Hz. unfold tolerance_seconds.
  rewrite Float64Facts.to_int64_Seconds_whole by lia.
  split.
  - intros (ts' & Hts' & Hle & Hsig). rewrite Hparse in Hts'. injection Hts' as <-.
    rewrite timestamp_age_abs in Hle by exact Habs. split; assumption.
  - intros [Hle Hsig]. exists ts. split; [exact Hparse|].
    rewrite timestamp_age_abs by exact Habs. split; assumption.
Qed.

(** C1: at the verification time 1700000000 and under the default
    tolerance of 300 seconds, [VerifyWebhook] returns true for the
    timestamp -9223372035154775808, which parses and lies 2^63 seconds in
    the past, when the signature is the expected one. *)
Theorem VerifyWebhook_accepts_distant_timestamp :
  let payload := "{}" in
  let secret := "whsec_test_secret" in
  let timestamp := "-9223372035154775808" in
  let now := 1700000000 in
  Strconv.ParseInt timestamp = Some (now - 2 ^ 63)
  /\ tolerance_seconds DefaultTolerance = 300
  /\ 300 < Z.abs (now - (now - 2 ^ 63))
  /\ VerifyWebhook payload (expected_signature payload timestamp secret)
       timestamp secret DefaultTolerance now = true.
Proof.
  cbv zeta. split; [reflexivity|]. split; [reflexivity|]. split; [reflexivity|].
  vm_compute. reflexivity.
Qed.

(** The conversion of the tolerance rounds in [float64]: one nanosecond
    short of 16777217 seconds becomes 16777217 whole seconds. *)
Lemma tolerance_seconds_rounds_up :
  tolerance_seconds (16777216 * Duration.Second + 999999999) = 16777217.
Proof. vm_compute. reflexivity. Qed.




(** ** The error built from a response *)

(** X1: the error built from a response keeps the status and the
    Retry-After value it is given; its message is [error.message] of the
    body when that is a string, and the text HTTP <status> error otherwise;
    its request id is the first non-empty one of the header value,
    [error.request_id] and the top-level [request_id] of the body. *)
Theorem errorFromResponse_fields (httpStatus : Z) (body : gmap string value)
    (retryAfter : Z) (requestID : string) :
  let e := errorFromResponse httpStatus body retryAfter requestID in
  HTTPStatus e = httpStatus
  /\ RetryAfter e = retryAfter
  /\ Message e = default ("HTTP " ++ Strconv.FormatInt httpStatus ++ " error")
                   (body_error_field body "message")
  /\ RequestID e = first_nonempty
       [requestID;
        default EmptyString (body_error_field body "request_id");
        default EmptyString (as_string (body !! "request_id"))].
Proof.
  unfold errorFromResponse, body_error_field. cbn [first_nonempty].
  destruct (as_object (body !! "error")) as [errMap|]; cbn [default];
    [destruct (as_string (errMap !! "message")) as [msg|];
     destruct (as_string (errMap !! "request_id")) as [rid|]|];
    destruct (as_string (body !! "request_id")) as [top|];
    destruct (String.eqb requestID EmptyString) eqn:E1; cbn [default];
    try rewrite E1;
    try (destruct (String.eqb rid EmptyString) eqn:E2);
    try (destruct (String.eqb top EmptyString) eqn:E3);
    cbn; repeat split; try reflexivity;
    repeat match goal with
           | H : String.eqb _ _ = true |- _ => apply String.eqb_eq in H; subst
           end; cbn;
    repeat match goal with
           | H : String.eqb _ _ = false |- _ => rewrite H
           end; reflexivity.
Qed.
Lemma errorFromResponse_Code (httpStatus : Z) (body : gmap string value)
    (retryAfter : Z) (requestID : string) :
  Code (errorFromResponse httpStatus body retryAfter requestID)
  = let c := default EmptyString (body_error_field body "code") in
    if String.eqb c EmptyString then infer_code httpStatus else c.
Proof.
  unfold errorFromResponse, body_error_field.
  destruct (as_object (body !! "error")) as [errMap|]; [|reflexivity].
  destruct (as_string (errMap !! "message"));
    destruct (as_string (errMap !! "code"));
    destruct (as_string (errMap !! "request_id")); reflexivity.
Qed.

Lemma errorFromResponse_HTTPStatus (httpStatus : Z) (body : gmap string value)
    (retryAfter : Z) (requestID : string) :
  HTTPStatus (errorFromResponse httpStatus body retryAfter requestID) = httpStatus.
Proof.
  unfold errorFromResponse.
  destruct (as_object (body !! "error")) as [errMap|]; [|reflexivity].
  destruct (as_string (errMap !! "message"));
    destruct (as_string (errMap !! "code"));
    destruct (as_string (errMap !! "request_id")); reflexivity.
Qed.


(** X2: a response whose body carries no error code (it is not JSON, or
    has no string at [error.code], or an empty one) is classified by its
    status alone: it is an error from 400 on; that error is retryable exactly
    at 408, 429 and from 500 on, statuses of 600 and above included; and
    [IsNotFound], [IsRateLimited], [IsAuthentication] and [IsValidation] hold
    exactly at 404, at 429, at 401, and at 400 and 422. *)
Theorem response_classified_by_status (status : Z) (header : gmap string string)
    (respBody : string) (decoded : option (gmap string value)) :
  no_body_code decoded ->
  let r := doRequest_result (Response status header respBody decoded) in
  let err := result_error r in
  (err = None <-> status < 400)
  /\ retryable r = (status =? 408) || (status =? 429) || (500 <=? status)
  /\ IsRetryable_error err = retryable r
  /\ IsNotFound err = (status =? 404)
  /\ IsRateLimited err = (status =? 429)
  /\ IsAuthentication err = (status =? 401)
  /\ IsValidation err = (status =? 400) || (status =? 422).
Proof.
  unfold no_body_code. intros Hcode. cbv zeta. cbn [doRequest_result].
  destruct (Z.leb_spec 400 status) as [Hge|Hlt].
  - cbn [result_error retryable]. unfold IsRetryable_error, IsNotFound, IsRateLimited,
      IsAuthentication, IsValidation. cbn [as_Error].
    set (e := errorFromResponse _ _ _ _).
    assert (Hc : Code e = infer_code status).
    { unfold e. rewrite errorFromResponse_Code. cbv zeta. rewrite Hcode. reflexivity. }
    assert (Hs : HTTPStatus e = status) by apply errorFromResponse_HTTPStatus.
    unfold IsRetryable. rewrite Hc, Hs. clearbody e. clear Hc Hs Hcode.
    split; [split; [discriminate|lia]|].
    unfold infer_code.
    status_cases status ltac:(subst; vm_compute; repeat split; reflexivity).
    destruct (Z.leb_spec 500 status) as [H5|H5].
    + cbn. repeat split; reflexivity.
    + cbn. repeat split; reflexivity.
  - cbn. split; [split; [lia|reflexivity]|].
    repeat match goal with
           | |- context [Z.eqb status ?n] => destruct (Z.eqb_spec status n); [lia|]
           end.
    destruct (Z.leb_spec 500 status); [lia|]. repeat split; reflexivity.
Qed.

Lemma response_classified_by_status_witness :
  no_body_code None
  /\ retryable (doRequest_result (Response 604 ∅ "oops" None)) = true
  /\ IsValidation (result_error (doRequest_result (Response 422 ∅ "oops" None))) = true.
Proof.
  split; [reflexivity|].
  split.
  - exact (proj1 (proj2 (response_classified_by_status 604 ∅ "oops" None eq_refl))).
  - apply (response_classified_by_status 422 ∅ "oops" None eq_refl).
Defined.
(** ** The trace of the retry loop *)

Section RetryTrace.

Variable doRequest : nat -> result.
Variable rand : nat -> Float64.float64.
Variable c : httpClient.

(** The loop returns once the fuel exceeds the attempts that remain. *)
Lemma retry_loop_total (fuel : nat) :
  forall (attempt : Z) (lastErr : option error) (w : world),
    (Z.to_nat (maxRetries c + 1 - attempt) < fuel)%nat ->
    exists r w', retry_loop doRequest rand fuel c attempt lastErr w = Some (r, w').
Proof.
  induction fuel as [|fuel IH]; intros attempt lastErr w Hfuel; [lia|].
  cbn [retry_loop].
  destruct (Z.leb_spec attempt (maxRetries c)) as [Hle|Hgt]; [|eauto].
  destruct (doRequest (calls w)) as [b h|[e|msg]]; [eauto| |eauto].
  destruct (negb (IsRetryable e) || (maxRetries c <=? attempt)) eqn:Hstop; [eauto|].
  apply IH. lia.
Qed.

(** What a run of the loop did: either its condition failed on entry, or
    it issued [k + 1] requests, of which the first [k] failed retryably and
    were each followed by one sleep, and returned the result of the last,
    which was not a retryable failure or was the last attempt allowed. *)
Lemma retry_loop_trace (fuel : nat) :
  forall (attempt : Z) (lastErr : option error) (w : world) (r : result) (w' : world),
    retry_loop doRequest rand fuel c attempt lastErr w = Some (r, w') ->
    (maxRetries c < attempt /\ w' = w /\ r = fallthrough lastErr)
    \/ (attempt <= maxRetries c
        /\ exists k : nat,
             calls w' = S (calls w + k)
             /\ attempt + Z.of_nat k <= maxRetries c
             /\ r = doRequest (calls w + k)
             /\ (forall i, (i < k)%nat -> retryable (doRequest (calls w + i)) = true)
             /\ (retryable r = false \/ attempt + Z.of_nat k = maxRetries c)
             /\ slept w'
                = (rev (map (fun i => delay_after doRequest rand c (calls w + i)
                                        (attempt + Z.of_nat i)) (seq 0 k))
                   ++ slept w)%list).
Proof.
  induction fuel as [|fuel IH]; intros attempt lastErr w r w' Hrun; [discriminate|].
  cbn [retry_loop] in Hrun.
  destruct (Z.leb_spec attempt (maxRetries c)) as [Hle|Hgt].
  2:{ left. inversion Hrun; subst. auto. }
  right. split; [exact Hle|].
  destruct (doRequest (calls w)) as [b h|[e|msg]] eqn:Hreq.
  - inversion Hrun; subst. exists 0%nat. rewrite Nat.add_0_r, Hreq. cbn.
    repeat split; try lia; auto; try (intros; lia).
  - destruct (negb (IsRetryable e) || (maxRetries c <=? attempt)) eqn:Hstop.
    + inversion Hrun; subst. exists 0%nat. rewrite Nat.add_0_r, Hreq. cbn.
      repeat split; try lia; auto; try (intros; lia).
      apply orb_true_iff in Hstop as [Hn|Hm].
      * left. now apply negb_true_iff in Hn.
      * right. apply Z.leb_le in Hm. lia.
    + apply orb_false_iff in Hstop as [Hn Hm].
      apply negb_false_iff in Hn. apply Z.leb_gt in Hm.
      apply IH in Hrun as [(Hgt & _)|(_ & k & Hcalls & Hk & Hr & Hbefore & Hlast & Hslept)];
        [lia|].
      cbn [calls slept] in *.
      exists (S k). repeat split.
      * lia.
      * lia.
      * rewrite Hr. f_equal. lia.
      * intros [|i] Hi.
        -- rewrite Nat.add_0_r, Hreq. exact Hn.
        -- replace (calls w + S i)%nat with (S (calls w) + i)%nat by lia.
           apply Hbefore. lia.
      * destruct Hlast as [Hlast|Hlast]; [left; exact Hlast|right; lia].
      * rewrite Hslept. cbn [seq map rev]. rewrite <- seq_shift, map_map.
        rewrite <- app_assoc. cbn [app]. f_equal.
        -- f_equal. apply map_ext. intros i. f_equal; lia.
        -- f_equal. unfold delay_after. rewrite Nat.add_0_r, Z.add_0_r, Hreq.
           reflexivity.
  - inversion Hrun; subst. exists 0%nat. rewrite Nat.add_0_r, Hreq. cbn.
    repeat split; try lia; auto; try (intros; lia).
Qed.

(** The two outcomes of [doWithRetry] on a fresh call. *)
Lemma doWithRetry_cases :
  (maxRetries c < 0
   /\ doWithRetry doRequest rand c world0 = Some (Success None None, world0))
  \/ (0 <= maxRetries c
      /\ exists k : nat,
           Z.of_nat k <= maxRetries c
           /\ doWithRetry doRequest rand c world0
              = Some (doRequest k,
                      mkWorld (S k)
                        (rev (map (fun i => delay_after doRequest rand c i (Z.of_nat i))
                                (seq 0 k))))
           /\ (forall i, (i < k)%nat -> retryable (doRequest i) = true)
           /\ (retryable (doRequest k) = false \/ Z.of_nat k = maxRetries c)).
Proof.
  unfold doWithRetry.
  destruct (retry_loop_total (S (Z.to_nat (maxRetries c + 1))) 0 None world0)
    as (r & w' & Hrun); [lia|].
  rewrite Hrun.
  apply retry_loop_trace in Hrun
    as [(Hneg & -> & ->)|(Hpos & k & Hcalls & Hk & Hr & Hbefore & Hlast & Hslept)].
  - left. split; [exact Hneg|reflexivity].
  - right. split; [exact Hpos|]. exists k. cbn [calls slept world0] in *.
    rewrite app_nil_r in Hslept. subst r.
    repeat split; try lia; auto.
    destruct w' as [n sl]. cbn [calls slept] in *. subst. reflexivity.
Qed.

End RetryTrace.


(** ** Calls over the transport *)





(** X6: a client whose retry bound is negative issues no request at all,
    and yet reports no error: a JSON request returns the empty object, a
    binary request a response with a nil body, [CacheManager.Get] nil as for
    an entry that does not exist, and [CacheManager.Delete] reports that the
    entry was deleted. *)
Theorem negative_bound_reports_success
    (json_Unmarshal : string -> option (gmap string value) + string)
    (doRequest : nat -> result) (rand : nat -> Float64.float64) (c : httpClient) :
  maxRetries c < 0 ->
  requestJSON json_Unmarshal doRequest rand c world0 = Some (Some ∅, None, world0)
  /\ requestBinary doRequest rand c world0 = Some (Some (None, None), None, world0)
  /\ CacheManager_Get doRequest rand c world0 = Some (None, None, world0)
  /\ CacheManager_Delete json_Unmarshal doRequest rand c world0
     = Some (true, None, world0).
Proof.
  intros Hneg.
  unfold CacheManager_Get, CacheManager_Delete, requestJSON, requestBinary.
  destruct (doWithRetry_cases doRequest rand c) as [(_ & Hrun)|(Hpos & _)]; [|lia].
  rewrite Hrun. cbn. repeat split; reflexivity.
Qed.

Lemma negative_bound_reports_success_witness :
  CacheManager_Delete (fun _ => inr "unexpected end of JSON input")
    (fun _ => Failure (OtherError "unreachable")) (fun _ => S754_zero false)
    (mkHTTPClient "key" "https://example.test" (-1) defaultRetryDelay) world0
  = Some (true, None, world0).
Proof.
  apply (negative_bound_reports_success (fun _ => inr "unexpected end of JSON input")
           (fun _ => Failure (OtherError "unreachable")) (fun _ => S754_zero false)
           (mkHTTPClient "key" "https://example.test" (-1) defaultRetryDelay)).
  cbn. lia.
Defined.

Lemma transport_failure_retryable (x : exchange) :
  transport_failure x = true ->
  exists e, doRequest_result x = Failure (ApiError e)
            /\ IsRetryable e = true
            /\ RetryAfter e = 0
            /\ RequestID e = EmptyString
            /\ ((Code e = CodeTimeout /\ HTTPStatus e = 408)
                \/ (Code e = CodeConnectionError /\ HTTPStatus e = 0)).
Proof.
  destruct x as [|msg|msg|msg|status h b d]; cbn [transport_failure doRequest_result];
    try discriminate; intros _.
  - eexists. split; [reflexivity|]. cbn. repeat split; auto.
  - destruct (isTimeoutError msg); eexists; (split; [reflexivity|]); cbn;
      repeat split; auto.
  - eexists. split; [reflexivity|]. cbn. repeat split; auto.
Qed.

(** X7: failures of the network are retried to the end, failures of the
    caller's body are not retried at all: when every attempt fails before a
    response is read, the call makes exactly [maxRetries + 1] requests and
    returns an error of code timeout and status 408 or of code
    connection_error and status 0; when the request body cannot be
    marshalled, the call makes one request attempt and returns an error of
    code invalid_request without sleeping. *)
Theorem transport_failures_retried (xs : nat -> exchange)
    (rand : nat -> Float64.float64) (c : httpClient) :
  0 <= maxRetries c ->
  ((forall i, transport_failure (xs i) = true) ->
   exists e w,
     doWithRetry (transport xs) rand c world0 = Some (Failure (ApiError e), w)
     /\ Z.of_nat (calls w) = maxRetries c + 1
     /\ Z.of_nat (length (slept w)) = maxRetries c
     /\ ((Code e = CodeTimeout /\ HTTPStatus e = 408)
         \/ (Code e = CodeConnectionError /\ HTTPStatus e = 0)))
  /\ (xs 0%nat = MarshalFailed ->
      exists e,
        doWithRetry (transport xs) rand c world0
        = Some (Failure (ApiError e), mkWorld 1 [])
        /\ Code e = CodeInvalidRequest /\ HTTPStatus e = 0).
Proof.
  intros Hpos.
  destruct (doWithRetry_cases (transport xs) rand c)
    as [(Hneg & _)|(_ & k & Hk & Hrun & Hbefore & Hlast)]; [lia|].
  rewrite Hrun. split.
  - intros Hall.
    destruct (transport_failure_retryable (xs k) (Hall k))
      as (e & He & Hretry & _ & _ & Hcode).
    unfold transport in *. rewrite He in *. cbn [retryable] in Hlast.
    destruct Hlast as [Hlast|Hlast]; [congruence|].
    eexists _, _. split; [reflexivity|]. cbn [calls slept].
    rewrite length_rev, length_map, length_seq. repeat split; try lia. exact Hcode.
  - intros Hx.
    assert (H0 : transport xs 0 = Failure (ApiError
               (mkError "failed to marshal request body" 0 CodeInvalidRequest EmptyString 0))).
    { unfold transport. rewrite Hx. reflexivity. }
    destruct k as [|k].
    + rewrite H0. eexists. split; [reflexivity|]. split; reflexivity.
    + specialize (Hbefore 0%nat ltac:(lia)). rewrite H0 in Hbefore. discriminate.
Qed.

Lemma transport_failures_retried_witness :
  exists e w,
    doWithRetry (transport (fun _ => DoFailed "dial tcp: connection refused"))
      (fun _ => S754_zero false)
      (mkHTTPClient "key" "https://example.test" 3 defaultRetryDelay) world0
    = Some (Failure (ApiError e), w)
    /\ Z.of_nat (calls w) = 4.
Proof.
  destruct (proj1 (transport_failures_retried
                     (fun _ => DoFailed "dial tcp: connection refused")
                     (fun _ => S754_zero false)
                     (mkHTTPClient "key" "https://example.test" 3 defaultRetryDelay)
                     ltac:(cbn; lia)) (fun _ => eq_refl))
    as (e & w & Hrun & Hcalls & _).
  exists e, w. split; [exact Hrun|exact Hcalls].
Defined.



(** X9: for the cache, an entry that does not exist is not an error: when
    every response of the server has status 404, [CacheManager.Get] returns
    a nil body and a nil error and [CacheManager.Delete] returns false and a
    nil error, after at least one request and at most [maxRetries + 1]. *)
Theorem cache_not_found_is_not_an_error
    (json_Unmarshal : string -> option (gmap string value) + string)
    (xs : nat -> exchange) (rand : nat -> Float64.float64) (c : httpClient) :
  0 <= maxRetries c ->
  (forall i, response_status (xs i) = Some 404) ->
  exists w,
    CacheManager_Get (transport xs) rand c world0 = Some (None, None, w)
    /\ CacheManager_Delete json_Unmarshal (transport xs) rand c world0
       = Some (false, None, w)
    /\ 1 <= Z.of_nat (calls w) <= maxRetries c + 1.
Proof.
  intros Hpos Hall.
  unfold CacheManager_Get, CacheManager_Delete, requestBinary, requestJSON.
  destruct (doWithRetry_cases (transport xs) rand c)
    as [(Hneg & _)|(_ & k & Hk & Hrun & _)]; [lia|].
  assert (Hk404 : exists e, transport xs k = Failure (ApiError e) /\ HTTPStatus e = 404).
  { unfold transport. specialize (Hall k).
    destruct (xs k) as [| | | |status h b d]; try discriminate.
    cbn in Hall. injection Hall as ->. cbn [doRequest_result].
    change (400 <=? 404) with true. cbv iota.
    eexists. split; [reflexivity|]. apply errorFromResponse_HTTPStatus. }
  destruct Hk404 as (e & He & Hstatus).
  rewrite Hrun, He. unfold IsNotFound. cbn [as_Error]. rewrite Hstatus.
  cbn [Z.eqb Pos.eqb orb]. eexists. split; [reflexivity|].
  split; [reflexivity|]. cbn [calls]. lia.
Qed.

Lemma cache_not_found_is_not_an_error_witness :
  exists w,
    CacheManager_Get (transport (fun _ => Response 404 ∅ "missing" None))
      (fun _ => S754_zero false)
      (mkHTTPClient "key" "https://example.test" 2 defaultRetryDelay) world0
    = Some (None, None, w).
Proof.
  destruct (cache_not_found_is_not_an_error (fun _ => inr "invalid character")
              (fun _ => Response 404 ∅ "missing" None) (fun _ => S754_zero false)
              (mkHTTPClient "key" "https://example.test" 2 defaultRetryDelay)
              ltac:(cbn; lia) (fun _ => eq_refl)) as (w & Hget & _).
  exists w. exact Hget.
Defined.

(** ** Construction *)

Lemma TrimRight_decompose (s : string) (c : ascii) :
  exists n, s = TrimRight s c ++ replicate_byte n c.
Proof.
  induction s as [|a s (n & IH)]; [exists 0%nat; reflexivity|].
  cbn [TrimRight]. destruct (TrimRight s c) as [|b r] eqn:Htrim.
  - destruct (Ascii.eqb_spec a c) as [->|Hne].
    + exists (S n). rewrite IH at 1. reflexivity.
    + exists n. rewrite IH at 1. reflexivity.
  - exists n. rewrite IH at 1. reflexivity.
Qed.

Lemma TrimRight_last (s : string) (c : ascii) :
  last_byte (TrimRight s c) <> Some c.
Proof.
  induction s as [|a s IH]; [discriminate|].
  cbn [TrimRight]. destruct (TrimRight s c) as [|b r] eqn:Htrim.
  - destruct (Ascii.eqb_spec a c) as [->|Hne]; [discriminate|].
    cbn. congruence.
  - exact IH.
Qed.

Lemma TrimRight_replicate (n : nat) (c : ascii) :
  TrimRight (replicate_byte n c) c = EmptyString.
Proof.
  induction n as [|n IH]; [reflexivity|].
  cbn [replicate_byte TrimRight]. rewrite IH, Ascii.eqb_refl. reflexivity.
Qed.

(** X10: the transport built by [newHTTPClient] has a base URL that never
    ends in a slash and differs from the one asked for, or from the default
    when none is asked for, only by the slashes trimmed at its end, so a
    base URL made of slashes alone becomes empty; its timeout is never zero
    and its base delay never compares equal to zero, the defaults of 30
    seconds and of one second replacing a zero; the key and the retry bound
    are kept as given, a negative bound included. *)
Theorem newHTTPClient_invariants (apiKey_ baseURL_ : string) (timeout_ maxRetries_ : Z)
    (retryDelay_ : Float64.float64) :
  let h := newHTTPClient apiKey_ baseURL_ timeout_ maxRetries_ retryDelay_ in
  last_byte (baseURL (core h)) <> Some "/"%char
  /\ (exists n,
        (if String.eqb baseURL_ EmptyString then defaultBaseURL else baseURL_)
        = baseURL (core h) ++ replicate_byte n "/")
  /\ (baseURL_ = EmptyString -> baseURL (core h) = "https://api.renderscreenshot.com")
  /\ (forall n, baseURL_ = replicate_byte (S n) "/" -> baseURL (core h) = EmptyString)
  /\ timeout h = (if timeout_ =? 0 then 30 * Duration.Second else timeout_)
  /\ timeout h <> 0
  /\ SFeqb (retryDelay (core h)) (S754_zero false) = false
  /\ (SFeqb retryDelay_ (S754_zero false) = true ->
      retryDelay (core h) = Float64.of_int 1)
  /\ apiKey (core h) = apiKey_
  /\ maxRetries (core h) = maxRetries_.
Proof.
  cbv zeta. unfold newHTTPClient. cbn [core baseURL timeout retryDelay apiKey maxRetries].
  split; [apply TrimRight_last|].
  split; [apply TrimRight_decompose|].
  split; [intros ->; reflexivity|].
  split.
  { intros n ->. cbn [replicate_byte String.eqb]. apply (TrimRight_replicate (S n)). }
  split; [reflexivity|].
  split.
  { destruct (Z.eqb_spec timeout_ 0) as [->|Hne]; [discriminate|exact Hne]. }
  split.
  { destruct (SFeqb retryDelay_ (S754_zero false)) eqn:E; [reflexivity|exact E]. }
  split; [intros ->; reflexivity|].
  split; reflexivity.
Qed.

Lemma newHTTPClient_invariants_witness :
  baseURL (core (newHTTPClient "key" "///" 0 (-1) (S754_zero true))) = EmptyString
  /\ retryDelay (core (newHTTPClient "key" "///" 0 (-1) (S754_zero true)))
     = Float64.of_int 1.
Proof.
  pose proof (newHTTPClient_invariants "key" "///" 0 (-1) (S754_zero true))
    as (_ & _ & _ & Hslashes & _ & _ & _ & Hdelay & _).
  split; [apply (Hslashes 2%nat); reflexivity|apply Hdelay; reflexivity].
Defined.

(** X11: [New] fails exactly when the API key is empty, with an error of
    status 401 and code unauthorized that is an authentication error and is
    not retryable; a client built without options talks to the default base
    URL, has no signing key, and never retries: each call makes exactly one
    request and never sleeps, whatever that request returns. *)
Theorem New_default_client (apiKey_ : string) (opts : list Option)
    (doRequest : nat -> result) (rand : nat -> Float64.float64) :
  (fst (New apiKey_ opts) = None <-> apiKey_ = EmptyString)
  /\ (snd (New apiKey_ opts) = None <-> apiKey_ <> EmptyString)
  /\ (forall e, snd (New apiKey_ opts) = Some e ->
        HTTPStatus e = 401 /\ Code e = "unauthorized"
        /\ IsAuthentication (Some (ApiError e)) = true
        /\ IsRetryable e = false)
  /\ (forall cl h, New apiKey_ [] = (Some (cl, h), None) ->
        baseURL (http cl) = "https://api.renderscreenshot.com"
        /\ apiKey (http cl) = apiKey_
        /\ signingKey cl = EmptyString /\ publicKeyID cl = EmptyString
        /\ doWithRetry doRequest rand (http cl) world0
           = Some (doRequest 0%nat, mkWorld 1 [])).
Proof.
  unfold New. destruct (String.eqb_spec apiKey_ EmptyString) as [->|Hne]; cbn [fst snd].
  - split; [split; reflexivity|].
    split; [split; [discriminate|congruence]|].
    split; [intros e He; injection He as <-; repeat split; reflexivity|].
    discriminate.
  - split; [split; [discriminate|contradiction]|].
    split; [split; [intros _; exact Hne|reflexivity]|].
    split; [discriminate|].
    intros cl h Hnew. injection Hnew as <- <-. cbn [http signingKey publicKeyID].
    do 4 (split; [reflexivity|]).
    match goal with |- doWithRetry _ _ ?c0 _ = _ => set (c := c0) end.
    destruct (doWithRetry_cases doRequest rand c)
      as [(Hneg & _)|(_ & k & Hk & Hrun & _)]; [cbn in Hneg; lia|].
    cbn in Hk. assert (k = 0%nat) as -> by lia. exact Hrun.
Qed.

Lemma New_default_client_witness :
  exists cl h,
    New "rs_live_key" [] = (Some (cl, h), None)
    /\ doWithRetry (fun _ => Failure (ApiError (mkError "boom" 503 CodeInternalError EmptyString 0)))
         (fun _ => S754_zero false) (http cl) world0
       = Some (Failure (ApiError (mkError "boom" 503 CodeInternalError EmptyString 0)),
               mkWorld 1 []).
Proof.
  eexists _, _. split; [reflexivity|].
  apply (proj2 (proj2 (proj2 (New_default_client "rs_live_key" []
           (fun _ => Failure (ApiError (mkError "boom" 503 CodeInternalError EmptyString 0)))
           (fun _ => S754_zero false)))) _ _ eq_refl).
Defined.

(** ** The headers of a webhook request *)

Section KeyedFold.

(** A loop that stores the value of every key of a map under a name
    computed from the key, as [normalizeHeaders] does and as the loop over
    the extra headers of [doRequest] does. *)
Variable norm : string -> string.

#[local] Abbreviation keyed_fold headers :=
  (fold_left (fun (result : gmap string string) k =>
                match headers !! k with
                | Some v => <[norm k := v]> result
                | None => result
                end)).

(** A name that no key is stored under is left as it was. *)
Lemma keyed_fold_absent (headers : gmap string string) (n : string)
    (order : list string) :
  forall acc : gmap string string,
    (forall k, k ∈ order -> is_Some (headers !! k) -> norm k <> n) ->
    keyed_fold headers order acc !! n = acc !! n.
Proof.
  induction order as [|k order IH]; intros acc Hnone; [reflexivity|].
  cbn [fold_left]. rewrite IH.
  - destruct (headers !! k) as [v|] eqn:Hk; [|reflexivity].
    apply lookup_insert_ne. apply Hnone; [left|eauto].
  - intros k' Hin. apply Hnone. right. exact Hin.
Qed.

(** The key visited last among those stored under a name gives the value
    at that name. *)
Lemma keyed_fold_last (headers : gmap string string) (n k v : string)
    (before after : list string) (acc : gmap string string) :
  headers !! k = Some v -> norm k = n ->
  (forall k', k' ∈ after -> is_Some (headers !! k') -> norm k' <> n) ->
  keyed_fold headers (before ++ k :: after) acc !! n = Some v.
Proof.
  intros Hk Hn Hafter. rewrite fold_left_app. cbn [fold_left].
  rewrite keyed_fold_absent by exact Hafter.
  rewrite Hk, Hn. apply lookup_insert_eq.
Qed.

Lemma keyed_fold_sole (headers : gmap string string) (order : list string)
    (acc : gmap string string) (n k v : string) :
  range_order order headers ->
  headers !! k = Some v -> norm k = n ->
  (forall k', is_Some (headers !! k') -> norm k' = n -> k' = k) ->
  keyed_fold headers order acc !! n = Some v.
Proof.
  intros Hord Hk Hn Hsole.
  assert (Hin : k ∈ order) by (apply (range_order_elem_of _ _ _ Hord); eauto).
  assert (Hnodup : NoDup order).
  { unfold range_order in Hord. rewrite Hord. apply NoDup_fst_map_to_list. }
  apply list_elem_of_split in Hin as (before & after & ->).
  apply keyed_fold_last; [exact Hk|exact Hn|].
  intros k' Hin' Hsome Hn'. apply Hsole in Hn'; [|exact Hsome]. subst k'.
  apply NoDup_app in Hnodup as (_ & _ & Hnodup).
  apply NoDup_cons in Hnodup as (Hnotin & _). contradiction.
Qed.

End KeyedFold.

Section HeaderFacts.

Variable unicode_ToLower : string -> string.

#[local] Abbreviation norm := (normalize_key unicode_ToLower).

Lemma normalizeHeaders_sole (headers : gmap string string) (order : list string)
    (n k v : string) :
  range_order order headers ->
  headers !! k = Some v -> norm k = n ->
  (forall k', is_Some (headers !! k') -> norm k' = n -> k' = k) ->
  normalizeHeaders unicode_ToLower headers order !! n = Some v.
Proof. apply (keyed_fold_sole norm). Qed.

Lemma normalizeHeaders_absent (headers : gmap string string) (order : list string)
    (n : string) :
  (forall k, is_Some (headers !! k) -> norm k <> n) ->
  normalizeHeaders unicode_ToLower headers order !! n = None.
Proof.
  intros Hnone. unfold normalizeHeaders.
  rewrite (keyed_fold_absent norm); [apply lookup_empty|].
  intros k _. apply Hnone.
Qed.

End HeaderFacts.

(** X12: [ExtractWebhookHeaders] finds the three headers under any
    spelling that differs from the lower-case dashed name by case and by
    underscores for dashes only: when exactly one header of the request
    normalizes to the name of the signature (of the timestamp, of the id),
    its value is the signature (the timestamp, the id) extracted, in
    whatever order the map is visited; when none does, the field is empty;
    and the spellings X-Webhook-Signature, x_webhook_signature and
    X_WEBHOOK_SIGNATURE all normalize to x-webhook-signature. *)
Theorem ExtractWebhookHeaders_finds (unicode_ToLower : string -> string)
    (headers : gmap string string) (order : list string) :
  range_order order headers ->
  let h := ExtractWebhookHeaders unicode_ToLower headers order in
  let norm := normalize_key unicode_ToLower in
  let sole n k v :=
    headers !! k = Some v /\ norm k = n
    /\ (forall k', is_Some (headers !! k') -> norm k' = n -> k' = k) in
  let none n := forall k, is_Some (headers !! k) -> norm k <> n in
  (forall k v, sole "x-webhook-signature" k v -> WebhookHeaders.Signature h = v)
  /\ (forall k v, sole "x-webhook-timestamp" k v -> WebhookHeaders.Timestamp h = v)
  /\ (forall k v, sole "x-webhook-id" k v -> WebhookHeaders.ID h = v)
  /\ (none "x-webhook-signature" -> WebhookHeaders.Signature h = EmptyString)
  /\ (none "x-webhook-timestamp" -> WebhookHeaders.Timestamp h = EmptyString)
  /\ (none "x-webhook-id" -> WebhookHeaders.ID h = EmptyString)
  /\ norm "X-Webhook-Signature" = "x-webhook-signature"
  /\ norm "x_webhook_signature" = "x-webhook-signature"
  /\ norm "X_WEBHOOK_SIGNATURE" = "x-webhook-signature".
Proof.
  intros Hord. cbv zeta. unfold ExtractWebhookHeaders.
  cbn [WebhookHeaders.Signature WebhookHeaders.Timestamp WebhookHeaders.ID].
  repeat split; try reflexivity.
  1-3: intros k v (Hk & Hn & Hsole);
    rewrite (normalizeHeaders_sole unicode_ToLower headers order _ k v Hord Hk Hn Hsole);
    reflexivity.
  all: intros Hnone; rewrite normalizeHeaders_absent by exact Hnone; reflexivity.
Qed.

Lemma ExtractWebhookHeaders_finds_witness :
  WebhookHeaders.Signature
    (ExtractWebhookHeaders (fun s => s)
       {[ "X_Webhook_Signature" := "sha256=00" ]} ["X_Webhook_Signature"])
  = "sha256=00".
Proof.
  apply (proj1 (ExtractWebhookHeaders_finds (fun s => s)
                  {[ "X_Webhook_Signature" := "sha256=00" ]} ["X_Webhook_Signature"]
                  ltac:(unfold range_order; rewrite map_to_list_singleton; reflexivity))
           "X_Webhook_Signature").
  split; [reflexivity|]. split; [reflexivity|].
  intros k' [v Hv] _. apply lookup_singleton_Some in Hv as [Hk _]. congruence.
Defined.

(** X13: two spellings of one header make the extraction depend on the
    order in which Go visits the map: when a request holds two different
    keys that both normalize to the name of the signature, each of the two
    orders is one that [range] may follow, and the signature extracted is
    the value of whichever key is visited last. *)
Theorem ExtractWebhookHeaders_conflict (unicode_ToLower : string -> string)
    (k1 k2 v1 v2 : string) :
  k1 <> k2 ->
  normalize_key unicode_ToLower k1 = "x-webhook-signature" ->
  normalize_key unicode_ToLower k2 = "x-webhook-signature" ->
  let headers : gmap string string := <[k1 := v1]> {[ k2 := v2 ]} in
  range_order [k1; k2] headers
  /\ range_order [k2; k1] headers
  /\ WebhookHeaders.Signature (ExtractWebhookHeaders unicode_ToLower headers [k1; k2]) = v2
  /\ WebhookHeaders.Signature (ExtractWebhookHeaders unicode_ToLower headers [k2; k1]) = v1.
Proof.
  intros Hne Hn1 Hn2. cbv zeta.
  assert (Hord : range_order [k1; k2] (<[k1 := v1]> ({[ k2 := v2 ]} : gmap string string))).
  { unfold range_order.
    rewrite map_to_list_insert by (apply lookup_singleton_ne; congruence).
    rewrite map_to_list_singleton. reflexivity. }
  split; [exact Hord|].
  split; [unfold range_order in *; rewrite <- Hord; apply Permutation_swap|].
  unfold ExtractWebhookHeaders, normalizeHeaders.
  cbn [WebhookHeaders.Signature fold_left].
  rewrite lookup_insert_eq, lookup_insert_ne, lookup_singleton_eq by congruence.
  rewrite Hn1, Hn2.
  split.
  - rewrite lookup_insert_eq. reflexivity.
  - rewrite lookup_insert_eq. reflexivity.
Qed.

Lemma ExtractWebhookHeaders_conflict_witness :
  WebhookHeaders.Signature
    (ExtractWebhookHeaders (fun s => s)
       (<["X-Webhook-Signature" := "sha256=aa"]> {[ "x_webhook_signature" := "sha256=bb" ]})
       ["X-Webhook-Signature"; "x_webhook_signature"]) = "sha256=bb"
  /\ WebhookHeaders.Signature
       (ExtractWebhookHeaders (fun s => s)
          (<["X-Webhook-Signature" := "sha256=aa"]> {[ "x_webhook_signature" := "sha256=bb" ]})
          ["x_webhook_signature"; "X-Webhook-Signature"]) = "sha256=aa".
Proof.
  pose proof (ExtractWebhookHeaders_conflict (fun s => s)
                "X-Webhook-Signature" "x_webhook_signature" "sha256=aa" "sha256=bb"
                ltac:(discriminate) eq_refl eq_refl) as (_ & _ & H12 & H21).
  split; [exact H12|exact H21].
Defined.
(** ** The event of a webhook *)



(** ** The shape of a signature *)

Module SHA256Facts.

Import SHA256.

Lemma round_length (st : list Z) (kw : Z * Z) :
  List.length (round st kw) = List.length st.
Proof.
  destruct st as [|a [|b [|c [|d [|e [|f [|g [|h [|i t]]]]]]]]]; reflexivity.
Qed.

Lemma fold_round_length (kws : list (Z * Z)) :
  forall st, List.length (fold_left round kws st) = List.length st.
Proof.
  induction kws as [|kw kws IH]; intros st; [reflexivity|].
  cbn [fold_left]. rewrite IH. apply round_length.
Qed.

Lemma compress_length (h block : list Z) :
  List.length (compress h block) = List.length h.
Proof.
  unfold compress. rewrite length_map, length_combine, fold_round_length. lia.
Qed.

Lemma blocks_length (n : nat) :
  forall h bs, List.length (blocks n h bs) = List.length h.
Proof.
  induction n as [|n IH]; intros h bs; [reflexivity|].
  cbn [blocks]. rewrite IH. apply compress_length.
Qed.

Lemma be_bytes_length (n : nat) (z : Z) : List.length (be_bytes n z) = n.
Proof. induction n as [|n IH]; [reflexivity|]. cbn [be_bytes List.length]. now rewrite IH. Qed.

Lemma concat_be_bytes_length (ws : list Z) :
  List.length (List.concat (List.map (be_bytes 4) ws)) = (4 * List.length ws)%nat.
Proof.
  induction ws as [|w ws IH]; [reflexivity|].
  cbn [List.map List.concat]. rewrite length_app, be_bytes_length, IH.
  cbn [List.length]. lia.
Qed.

(** A digest has 32 bytes. *)
Lemma Sum256_length (msg : list Z) : List.length (Sum256 msg) = 32%nat.
Proof.
  unfold Sum256. rewrite concat_be_bytes_length, blocks_length. reflexivity.
Qed.

End SHA256Facts.

Lemma EncodeToString_length (bs : list Z) :
  String.length (Hex.EncodeToString bs) = (2 * List.length bs)%nat.
Proof.
  induction bs as [|b bs IH]; [reflexivity|].
  cbn [Hex.EncodeToString String.length List.length]. rewrite IH. lia.
Qed.

Lemma expected_signature_shape (payload timestamp secret : string) :
  String.length (expected_signature payload timestamp secret) = 71%nat
  /\ prefixb "sha256=" (expected_signature payload timestamp secret) = true.
Proof.
  unfold expected_signature, hmac_sha256_hex. split; [|reflexivity].
  change (String.length ("sha256=" ++ ?s)) with (7 + String.length s)%nat.
  rewrite EncodeToString_length.
  unfold HMAC.Sum. rewrite SHA256Facts.Sum256_length. reflexivity.
Qed.

Lemma VerifyWebhook_nonempty (payload signature timestamp secret : string)
    (tolerance now : Z) :
  VerifyWebhook payload signature timestamp secret tolerance now = true ->
  payload <> EmptyString /\ signature <> EmptyString
  /\ timestamp <> EmptyString /\ secret <> EmptyString.
Proof.
  intros Hv. repeat split; intros ->;
    rewrite VerifyWebhook_empty in Hv by auto; discriminate.
Qed.

(** X15: a webhook that verifies pins its signature down: the signature
    is the text sha256= followed by the lower-case hexadecimal HMAC-SHA256
    of the timestamp, a dot and the payload, 71 bytes in all, the timestamp
    is a decimal integer, and no other signature verifies for the same
    payload, timestamp and secret, at any time and under any tolerance. *)
Theorem VerifyWebhook_signature_unique (payload signature timestamp secret : string)
    (tolerance now : Z) :
  VerifyWebhook payload signature timestamp secret tolerance now = true ->
  signature = "sha256=" ++ hmac_sha256_hex secret (timestamp ++ "." ++ payload)
  /\ String.length signature = 71%nat
  /\ prefixb "sha256=" signature = true
  /\ is_Some (Strconv.ParseInt timestamp)
  /\ (forall signature' tolerance' now',
        VerifyWebhook payload signature' timestamp secret tolerance' now' = true ->
        signature' = signature).
Proof.
  intros Hv.
  destruct (VerifyWebhook_nonempty _ _ _ _ _ _ Hv) as (Hp & Hs & Ht & Hk).
  apply VerifyWebhook_accepts in Hv as (ts & Hts & _ & Hsig); try assumption.
  split; [exact Hsig|].
  rewrite Hsig.
  split; [apply expected_signature_shape|].
  split; [apply expected_signature_shape|].
  split; [rewrite Hts; eauto|].
  intros signature' tolerance' now' Hv'.
  destruct (VerifyWebhook_nonempty _ _ _ _ _ _ Hv') as (_ & Hs' & _ & _).
  apply VerifyWebhook_accepts in Hv' as (ts' & _ & _ & Hsig'); assumption.
Qed.

Lemma VerifyWebhook_signature_unique_witness :
  String.length (expected_signature "{}" "1700000000" "whsec_test") = 71%nat.
Proof.
  apply (VerifyWebhook_signature_unique "{}"
           (expected_signature "{}" "1700000000" "whsec_test") "1700000000" "whsec_test"
           (300 * Duration.Second) 1700000100).
  vm_compute. reflexivity.
Defined.

(** X16: widening the tolerance never turns an accepted webhook into a
    rejected one: for tolerances of whole seconds from one second up to
    2^53 seconds, what verifies under a tolerance verifies under every
    larger one. *)
Theorem VerifyWebhook_tolerance_monotone (payload signature timestamp secret : string)
    (seconds seconds' now : Z) :
  0 < seconds <= seconds' ->
  seconds' < 2 ^ 53 ->
  VerifyWebhook payload signature timestamp secret (seconds * Duration.Second) now = true ->
  VerifyWebhook payload signature timestamp secret (seconds' * Duration.Second) now = true.
Proof.
  intros Hs Hs' Hv.
  destruct (VerifyWebhook_nonempty _ _ _ _ _ _ Hv) as (Hp & Hsg & Ht & Hk).
  apply VerifyWebhook_accepts in Hv as (ts & Hts & Hage & Hsig); try assumption.
  apply VerifyWebhook_accepts; try assumption.
  exists ts. split; [exact Hts|]. split; [|exact Hsig].
  assert (Hnz : forall s, 0 < s -> (s * Duration.Second =? 0) = false).
  { intros s H. apply Z.eqb_neq. unfold Duration.Second. lia. }
  rewrite Hnz in * by lia.
  unfold tolerance_seconds in *.
  rewrite Float64Facts.to_int64_Seconds_whole in * by lia. lia.
Qed.

Lemma VerifyWebhook_tolerance_monotone_witness :
  VerifyWebhook "{}" (expected_signature "{}" "1700000000" "whsec_test") "1700000000"
    "whsec_test" (600 * Duration.Second) 1700000100 = true.
Proof.
  apply (VerifyWebhook_tolerance_monotone "{}"
           (expected_signature "{}" "1700000000" "whsec_test") "1700000000" "whsec_test"
           300 600 1700000100); [lia|lia|].
  vm_compute. reflexivity.
Defined.
(** ** The options that are signed *)

Lemma set_if_is_Some (cond : bool) (k v : string) (m : gmap string string) (k' : string) :
  is_Some (set_if cond k v m !! k') -> k' = k \/ is_Some (m !! k').
Proof.
  unfold set_if. destruct cond; [|auto].
  destruct (decide (k' = k)) as [->|Hne]; [auto|].
  rewrite lookup_insert_ne by congruence. auto.
Qed.

Lemma set_if_lookup_ne (cond : bool) (k v : string) (m : gmap string string) (k' : string) :
  k' <> k -> set_if cond k v m !! k' = m !! k'.
Proof.
  intros Hne. unfold set_if. destruct cond; [|reflexivity].
  apply lookup_insert_ne. congruence.
Qed.

Lemma set_if_lookup_eq (cond : bool) (k v : string) (m : gmap string string) :
  set_if cond k v m !! k = if cond then Some v else m !! k.
Proof. unfold set_if. destruct cond; [apply lookup_insert_eq|reflexivity]. Qed.

Lemma toFlatMap_dom (fmt_g : Float64.float64 -> string) (o : TakeOptions) (k : string) :
  is_Some (toFlatMap fmt_g o !! k) -> k ∈ flat_keys.
Proof.
  unfold toFlatMap. cbv zeta. intros H.
  repeat match type of H with
         | is_Some (set_if _ _ _ _ !! _) =>
             apply set_if_is_Some in H as [->|H];
               [unfold flat_keys; repeat constructor|]
         end.
  rewrite lookup_empty in H. destruct H as [? H]. discriminate H.
Qed.

(** X17: the options never reach the two parameters that the signer
    itself sets: the flattened options hold only keys of a fixed list of
    eighteen, none of which is expires or key_id, so in the parameters that
    are signed expires is the decimal expiry time and key_id is the key id,
    every flattened option is signed with its own value, and nothing else
    is signed. *)
Theorem toFlatMap_signed_params (fmt_g : Float64.float64 -> string) (o : TakeOptions)
    (order : list string) (expires : Z) (keyID : string) :
  range_order order (toFlatMap fmt_g o) ->
  let signParams := sign_params (toFlatMap fmt_g o) order expires keyID in
  (forall k, is_Some (toFlatMap fmt_g o !! k) -> k ∈ flat_keys)
  /\ signParams !! "expires" = Some (Strconv.FormatInt expires)
  /\ signParams !! "key_id" = Some keyID
  /\ (forall k v, toFlatMap fmt_g o !! k = Some v -> signParams !! k = Some v)
  /\ (forall k, is_Some (signParams !! k) ->
        k = "expires" \/ k = "key_id" \/ k ∈ flat_keys).
Proof.
  intros Hord. cbv zeta. rewrite (sign_params_union _ _ _ _ Hord).
  assert (Hnot : forall k, k ∉ flat_keys -> toFlatMap fmt_g o !! k = None).
  { intros k Hk. destruct (toFlatMap fmt_g o !! k) eqn:E; [|reflexivity].
    exfalso. apply Hk. apply (toFlatMap_dom fmt_g o). eauto. }
  assert (Hexp : "expires" ∉ flat_keys).
  { unfold flat_keys. intros Hin. repeat (apply elem_of_cons in Hin as [Hin|Hin];
      [discriminate Hin|]). inversion Hin. }
  assert (Hkey : "key_id" ∉ flat_keys).
  { unfold flat_keys. intros Hin. repeat (apply elem_of_cons in Hin as [Hin|Hin];
      [discriminate Hin|]). inversion Hin. }
  split; [apply toFlatMap_dom|].
  split.
  { rewrite lookup_union_r by (apply Hnot, Hexp).
    rewrite lookup_insert_ne by discriminate. apply lookup_insert_eq. }
  split.
  { rewrite lookup_union_r by (apply Hnot, Hkey). apply lookup_insert_eq. }
  split.
  { intros k v Hk. apply lookup_union_Some_l. exact Hk. }
  intros k [v Hk]. apply lookup_union_Some_raw in Hk as [Hk|[_ Hk]].
  - right. right. apply (toFlatMap_dom fmt_g o). eauto.
  - destruct (decide (k = "key_id")) as [->|Hne]; [auto|].
    rewrite lookup_insert_ne in Hk by congruence.
    destruct (decide (k = "expires")) as [->|Hne']; [auto|].
    rewrite lookup_insert_ne in Hk by congruence.
    rewrite lookup_empty in Hk. discriminate Hk.
Qed.

Lemma toFlatMap_signed_params_witness :
  sign_params (toFlatMap (fun _ => "2") (URL_ "https://example.com")) ["url"]
    1700000000 "rs_pub_1" !! "expires" = Some "1700000000".
Proof.
  assert (Hord : range_order ["url"]
                   (toFlatMap (fun _ => "2") (URL_ "https://example.com"))).
  { unfold range_order. vm_compute. reflexivity. }
  exact (proj1 (proj2 (toFlatMap_signed_params (fun _ => "2") (URL_ "https://example.com")
                         ["url"] 1700000000 "rs_pub_1" Hord))).
Defined.

(** X18: what [toFlatMap] leaves out is signed like what was never set: a
    flag set to false flattens like a flag that was not set, and so signs
    the same URL; a flag set with no argument is flattened as the text
    true; a width of zero is left out like an unset one, and any other
    width is flattened as its decimal numeral, which reads back as the
    width. *)
Theorem toFlatMap_omits_zero_values (fmt_g : Float64.float64 -> string)
    (o : TakeOptions) (w : Z) :
  (fullPage o = None -> toFlatMap fmt_g (FullPage [false] o) = toFlatMap fmt_g o)
  /\ toFlatMap fmt_g (FullPage [false] o) !! "full_page" = None
  /\ toFlatMap fmt_g (FullPage [] o) !! "full_page" = Some "true"
  /\ toFlatMap fmt_g (Width 0 o) !! "width" = None
  /\ (w <> 0 -> toFlatMap fmt_g (Width w o) !! "width" = Some (Strconv.FormatInt w))
  /\ (w <> 0 -> Int64.in_range w = true ->
      toFlatMap fmt_g (Width w o) !! "width" ≫= Strconv.ParseInt = Some w)
  /\ (forall (c : Client) expires sk pk order1 order2,
        fullPage o = None ->
        GenerateURL c (toFlatMap fmt_g (FullPage [false] o)) expires sk pk order1 order2
        = GenerateURL c (toFlatMap fmt_g o) expires sk pk order1 order2).
Proof.
  assert (Hsame : fullPage o = None ->
                  toFlatMap fmt_g (FullPage [false] o) = toFlatMap fmt_g o).
  { intros Hnone. unfold toFlatMap, FullPage.
    cbn [url html preset device width height scale mobile fullPage element format
         quality waitFor delay blockAds blockTrackers darkMode cacheTTL].
    rewrite Hnone. reflexivity. }
  assert (Hwidth : toFlatMap fmt_g (Width w o) !! "width"
                   = if nonzero w then Some (Strconv.FormatInt w) else None).
  { unfold toFlatMap, Width. cbv zeta.
    cbn [url html preset device width height scale mobile fullPage element format
         quality waitFor delay blockAds blockTrackers darkMode cacheTTL].
    repeat (rewrite set_if_lookup_ne by discriminate).
    rewrite set_if_lookup_eq.
    repeat (rewrite set_if_lookup_ne by discriminate).
    rewrite lookup_empty. reflexivity. }
  split; [exact Hsame|].
  split.
  { unfold toFlatMap, FullPage. cbv zeta.
    cbn [url html preset device width height scale mobile fullPage element format
         quality waitFor delay blockAds blockTrackers darkMode cacheTTL].
    repeat (rewrite set_if_lookup_ne by discriminate).
    rewrite set_if_lookup_eq. cbn [is_set].
    repeat (rewrite set_if_lookup_ne by discriminate).
    apply lookup_empty. }
  split.
  { unfold toFlatMap, FullPage. cbv zeta.
    cbn [url html preset device width height scale mobile fullPage element format
         quality waitFor delay blockAds blockTrackers darkMode cacheTTL].
    repeat (rewrite set_if_lookup_ne by discriminate).
    rewrite set_if_lookup_eq. reflexivity. }
  split.
  { unfold toFlatMap, Width. cbv zeta.
    cbn [url html preset device width height scale mobile fullPage element format
         quality waitFor delay blockAds blockTrackers darkMode cacheTTL].
    repeat (rewrite set_if_lookup_ne by discriminate).
    rewrite set_if_lookup_eq. cbn [nonzero Z.eqb negb].
    repeat (rewrite set_if_lookup_ne by discriminate).
    apply lookup_empty. }
  assert (Hnz : w <> 0 -> nonzero w = true).
  { intros Hw. unfold nonzero. destruct (Z.eqb_spec w 0); [contradiction|reflexivity]. }
  split; [intros Hw; rewrite Hwidth, (Hnz Hw); reflexivity|].
  split.
  { intros Hw Hr. rewrite Hwidth, (Hnz Hw). cbn.
    apply StrconvFacts.ParseInt_FormatInt. exact Hr. }
  intros c expires sk pk order1 order2 Hnone. rewrite (Hsame Hnone). reflexivity.
Qed.

Lemma toFlatMap_omits_zero_values_witness :
  toFlatMap (fun _ => "2") (FullPage [false] (URL_ "https://example.com"))
  = toFlatMap (fun _ => "2") (URL_ "https://example.com")
  /\ toFlatMap (fun _ => "2") (Width 1280 (URL_ "https://example.com")) !! "width"
     = Some "1280".
Proof.
  pose proof (toFlatMap_omits_zero_values (fun _ => "2") (URL_ "https://example.com") 1280)
    as (Hsame & _ & _ & _ & Hwidth & _).
  split; [apply Hsame; reflexivity|].
  rewrite Hwidth by lia. vm_compute. reflexivity.
Defined.

(** ** The escaping of query values *)

Lemma escape_byte_safe (a : ascii) :
  forallb query_safe (list_ascii_of_string (URL.escape_byte a)) = true.
Proof. destruct a as [[] [] [] [] [] [] [] []]; vm_compute; reflexivity. Qed.

Lemma query_unescape_percent (x y : ascii) (rest : string) :
  query_unescape (String "%" (String x (String y rest)))
  = match unhex x, unhex y, query_unescape rest with
    | Some hx, Some hy, Some r =>
        Some (String (ascii_of_N (Z.to_N (16 * hx + hy))) r)
    | _, _, _ => None
    end.
Proof. reflexivity. Qed.

Lemma query_unescape_plain (a : ascii) (rest : string) :
  Ascii.eqb a "%" = false ->
  query_unescape (String a rest)
  = match query_unescape rest with
    | Some r => Some (String (if Ascii.eqb a "+" then " "%char else a) r)
    | None => None
    end.
Proof. intros H. cbn [query_unescape]. rewrite H. reflexivity. Qed.

Lemma escape_byte_unescape (a : ascii) (r : string) :
  query_unescape (URL.escape_byte a ++ r)
  = match query_unescape r with
    | Some r' => Some (String a r')
    | None => None
    end.
Proof.
  destruct a as [[] [] [] [] [] [] [] []];
    match goal with
    | |- context [URL.escape_byte ?a] =>
        let e := eval vm_compute in (URL.escape_byte a) in
        change (URL.escape_byte a) with e
    end;
    cbv [String.append];
    first [ rewrite query_unescape_percent;
            repeat match goal with
                   | |- context [unhex ?x] =>
                       let v := eval vm_compute in (unhex x) in
                       change (unhex x) with v
                   end
          | rewrite query_unescape_plain by reflexivity ];
    destruct (query_unescape r); reflexivity.
Qed.

Lemma list_ascii_of_string_app (s t : string) :
  list_ascii_of_string (s ++ t)
  = (list_ascii_of_string s ++ list_ascii_of_string t)%list.
Proof.
  induction s as [|a s IH]; [reflexivity|].
  change (String a s ++ t) with (String a (s ++ t)).
  cbn [list_ascii_of_string]. rewrite IH. reflexivity.
Qed.

Lemma QueryEscape_unescape (s : string) :
  query_unescape (URL.QueryEscape s) = Some s.
Proof.
  induction s as [|a s IH]; [reflexivity|].
  cbn [URL.QueryEscape]. rewrite escape_byte_unescape, IH. reflexivity.
Qed.

(** X19: [url.QueryEscape] as the signer uses it loses nothing and lets
    nothing out: an escaped value holds only letters, digits, the marks
    - _ . ~ and the signs + and percent, so that it holds no ampersand, no
    equals sign and no space and cannot run into the next parameter of the
    canonical query; decoding it gives the value back, so that two
    different values are never escaped alike. *)
Theorem QueryEscape_round_trip (s : string) :
  query_unescape (URL.QueryEscape s) = Some s
  /\ forallb query_safe (list_ascii_of_string (URL.QueryEscape s)) = true
  /\ (forall a, In a (list_ascii_of_string (URL.QueryEscape s)) ->
        a <> "&"%char /\ a <> "="%char /\ a <> " "%char /\ a <> "#"%char)
  /\ (forall t, URL.QueryEscape t = URL.QueryEscape s -> t = s).
Proof.
  assert (Hsafe : forallb query_safe (list_ascii_of_string (URL.QueryEscape s)) = true).
  { induction s as [|a s IH]; [reflexivity|].
    cbn [URL.QueryEscape]. rewrite list_ascii_of_string_app, forallb_app.
    rewrite escape_byte_safe, IH. reflexivity. }
  split; [apply QueryEscape_unescape|].
  split; [exact Hsafe|].
  split.
  - intros a Hin. rewrite forallb_forall in Hsafe. specialize (Hsafe a Hin).
    repeat split; intros ->; vm_compute in Hsafe; discriminate Hsafe.
  - intros t Heq.
    pose proof (QueryEscape_unescape t) as Ht.
    rewrite Heq, QueryEscape_unescape in Ht. congruence.
Qed.

Lemma QueryEscape_round_trip_witness :
  URL.QueryEscape "a+b" <> URL.QueryEscape "a b".
Proof.
  intros Heq.
  apply (proj2 (proj2 (proj2 (QueryEscape_round_trip "a b"))) "a+b") in Heq.
  discriminate Heq.
Defined.

(** ** The margins of a PDF *)

(** X20: the API form of a margin is never an empty object: a uniform
    value that is not empty is sent as that string and hides the sides;
    otherwise the sides that are not empty are sent under the keys top,
    right, bottom and left, each with its own value, and when there is none
    the margin is nil. *)
Theorem toAPI_cases (m : PDFMargin) :
  match toAPI m with
  | MarginString s => s = uniform m /\ s <> EmptyString
  | MarginNil =>
      uniform m = EmptyString /\ Top m = EmptyString /\ Right m = EmptyString
      /\ Bottom m = EmptyString /\ Left m = EmptyString
  | MarginMap r =>
      uniform m = EmptyString
      /\ r <> ∅
      /\ r !! "top" = (if nonempty (Top m) then Some (Top m) else None)
      /\ r !! "right" = (if nonempty (Right m) then Some (Right m) else None)
      /\ r !! "bottom" = (if nonempty (Bottom m) then Some (Bottom m) else None)
      /\ r !! "left" = (if nonempty (Left m) then Some (Left m) else None)
      /\ (forall k, is_Some (r !! k) -> k ∈ ["top"; "right"; "bottom"; "left"])
  end.
Proof.
  unfold toAPI, isUniform. destruct m as [u t r b l]. cbn [uniform Top Right Bottom Left].
  destruct u as [|c u]; [|cbn; split; [reflexivity|discriminate]].
  cbn [nonempty String.eqb negb]. cbv zeta.
  set (res := set_if (nonempty l) _ _ _).
  assert (Hdom : forall k, is_Some (res !! k) -> k ∈ ["top"; "right"; "bottom"; "left"]).
  { intros k H. unfold res in H.
    repeat match type of H with
           | is_Some (set_if _ _ _ _ !! _) =>
               apply set_if_is_Some in H as [->|H]; [repeat constructor|]
           end.
    rewrite lookup_empty in H. destruct H as [? H]. discriminate H. }
  assert (Htop : res !! "top" = if nonempty t then Some t else None).
  { unfold res. repeat (rewrite set_if_lookup_ne by discriminate).
    rewrite set_if_lookup_eq, lookup_empty. reflexivity. }
  assert (Hright : res !! "right" = if nonempty r then Some r else None).
  { unfold res. repeat (rewrite set_if_lookup_ne by discriminate).
    rewrite set_if_lookup_eq. rewrite set_if_lookup_ne by discriminate.
    rewrite lookup_empty. reflexivity. }
  assert (Hbottom : res !! "bottom" = if nonempty b then Some b else None).
  { unfold res. repeat (rewrite set_if_lookup_ne by discriminate).
    rewrite set_if_lookup_eq. repeat (rewrite set_if_lookup_ne by discriminate).
    rewrite lookup_empty. reflexivity. }
  assert (Hleft : res !! "left" = if nonempty l then Some l else None).
  { unfold res. rewrite set_if_lookup_eq.
    repeat (rewrite set_if_lookup_ne by discriminate).
    rewrite lookup_empty. reflexivity. }
  destruct (Nat.eqb_spec (size res) 0) as [Hsize|Hsize].
  - apply map_size_empty_iff in Hsize. rewrite Hsize in *.
    rewrite lookup_empty in Htop, Hright, Hbottom, Hleft.
    split; [reflexivity|].
    repeat split.
    + destruct t; [reflexivity|discriminate Htop].
    + destruct r; [reflexivity|discriminate Hright].
    + destruct b; [reflexivity|discriminate Hbottom].
    + destruct l; [reflexivity|discriminate Hleft].
  - split; [reflexivity|].
    split; [intros Hempty; apply Hsize; rewrite Hempty; apply map_size_empty|].
    auto.
Qed.

Lemma toAPI_cases_witness :
  toAPI (SidesMargin "1cm" EmptyString EmptyString "2cm") <> MarginNil.
Proof.
  pose proof (toAPI_cases (SidesMargin "1cm" EmptyString EmptyString "2cm")) as H.
  intros Hnil. rewrite Hnil in H. destruct H as (_ & Htop & _). discriminate Htop.
Defined.

(** ** The result of a purge *)

Lemma purge_keys_fold (v : list value) :
  forall acc : list string,
    fold_left (fun keys k => match as_string (Some k) with
                             | Some s => (keys ++ [s])%list
                             | None => keys
                             end) v acc
    = (acc ++ omap (fun k => as_string (Some k)) v)%list.
Proof.
  induction v as [|k v IH]; intros acc; [cbn; now rewrite app_nil_r|].
  cbn [fold_left omap list_omap]. rewrite IH.
  destruct (as_string (Some k)) as [s|]; [|reflexivity].
  rewrite <- app_assoc. reflexivity.
Qed.

Lemma omap_length_le {A B} (f : A -> option B) (l : list A) :
  (length (omap f l) <= length l)%nat.
Proof.
  induction l as [|x l IH]; [reflexivity|].
  cbn [omap list_omap]. destruct (f x); cbn [length]; lia.
Qed.

(** X21: the keys of a purge result are the strings of the array at the
    key keys, in the order of the array and with their repetitions; the
    items that are not strings are dropped without an error, so a key is
    reported exactly when the array holds it as a string, and no keys are
    reported when there is no array; the count is the number at the key
    purged, exactly for an integer below 2^53 in magnitude. *)
Theorem parsePurgeResult_keys (m : gmap string value) :
  (forall v, m !! "keys" = Some (VArray v) ->
     Keys (parsePurgeResult m) = omap (fun k => as_string (Some k)) v
     /\ (forall s, s ∈ Keys (parsePurgeResult m) <-> VString s ∈ v)
     /\ (length (Keys (parsePurgeResult m)) <= length v)%nat)
  /\ (as_array (m !! "keys") = None -> Keys (parsePurgeResult m) = [])
  /\ (forall n, - 2 ^ 53 < n < 2 ^ 53 ->
        m !! "purged" = Some (VNumber (Float64.of_int n)) ->
        Purged (parsePurgeResult m) = n).
Proof.
  unfold parsePurgeResult. cbn [Keys Purged]. split; [|split].
  - intros v ->. cbn [as_array]. rewrite purge_keys_fold. cbn [app].
    split; [reflexivity|]. split.
    + intros s. rewrite list_elem_of_omap. split.
      * intros (k & Hin & Hk). destruct k; try discriminate Hk.
        cbn in Hk. injection Hk as ->. exact Hin.
      * intros Hin. exists (VString s). split; [exact Hin|reflexivity].
    + apply omap_length_le.
  - intros ->. reflexivity.
  - intros n Hn ->. cbn [as_float64]. apply Float64Facts.to_int64_of_int. exact Hn.
Qed.

Lemma parsePurgeResult_keys_witness :
  Keys (parsePurgeResult {[ "keys" := VArray [VString "a"; VNumber (Float64.of_int 7);
                                              VString "b"] ]})
  = ["a"; "b"].
Proof.
  apply (proj1 (parsePurgeResult_keys
                  {[ "keys" := VArray [VString "a"; VNumber (Float64.of_int 7);
                                       VString "b"] ]})
           [VString "a"; VNumber (Float64.of_int 7); VString "b"]
           (lookup_singleton_eq _ _)).
Defined.

(** ** Signed URLs of a constructed client *)




(** ** The text of a transport error *)

Lemma prefixb_app (p s : string) : prefixb p (p ++ s) = true.
Proof.
  induction p as [|a p IH]; [reflexivity|].
  change (String a p ++ s) with (String a (p ++ s)).
  cbn [prefixb]. rewrite Ascii.eqb_refl, IH. reflexivity.
Qed.

Lemma Contains_app (pre sub post : string) : Contains (pre ++ sub ++ post) sub = true.
Proof.
  induction pre as [|a pre IH].
  - change (EmptyString ++ sub ++ post) with (sub ++ post).
    destruct (sub ++ post) eqn:E; cbn [Contains]; rewrite <- E, prefixb_app; reflexivity.
  - change (String a pre ++ sub ++ post) with (String a (pre ++ sub ++ post)).
    cbn [Contains]. rewrite IH. apply orb_true_r.
Qed.

(** X23: a failure of the round trip is told apart by its text alone:
    when the text of the error holds the word timeout or the words deadline
    exceeded anywhere, the failure is reported as a timeout of status 408
    with the fixed message Request timed out, and the text is dropped;
    otherwise it is reported as a connection error of status 0 whose
    message ends with the text; either way it is retryable and carries no
    request id. *)
Theorem DoFailed_classified_by_text (msg pre post : string) :
  (msg = pre ++ "timeout" ++ post \/ msg = pre ++ "deadline exceeded" ++ post ->
   doRequest_result (DoFailed msg)
   = Failure (ApiError (mkError "Request timed out" 408 "timeout" EmptyString 0)))
  /\ (isTimeoutError msg = false ->
      doRequest_result (DoFailed msg)
      = Failure (ApiError (mkError ("Failed to connect to server: " ++ msg) 0
                             "connection_error" EmptyString 0)))
  /\ retryable (doRequest_result (DoFailed msg)) = true.
Proof.
  cbn [doRequest_result]. split; [|split].
  - unfold isTimeoutError. intros [-> | ->]; rewrite Contains_app;
      rewrite ?orb_true_r; reflexivity.
  - intros ->. reflexivity.
  - destruct (isTimeoutError msg); reflexivity.
Qed.

Lemma DoFailed_classified_by_text_witness :
  doRequest_result (DoFailed "dial tcp: lookup timeout.example.com: no such host")
  = Failure (ApiError (mkError "Request timed out" 408 "timeout" EmptyString 0)).
Proof.
  apply (proj1 (DoFailed_classified_by_text
                  "dial tcp: lookup timeout.example.com: no such host"
                  "dial tcp: lookup " ".example.com: no such host")).
  left. reflexivity.
Defined.

(** ** The request that is sent *)

Lemma string_append_assoc (a b c : string) : (a ++ b) ++ c = a ++ (b ++ c).
Proof.
  induction a as [|x a IH]; [reflexivity|].
  change (String x a ++ b) with (String x (a ++ b)).
  change (String x (a ++ b) ++ c) with (String x ((a ++ b) ++ c)).
  change (String x a ++ (b ++ c)) with (String x (a ++ (b ++ c))).
  rewrite IH. reflexivity.
Qed.

(** X24: every request carries the bearer token and the user agent of the
    client unless the caller's extra headers replace them: when no extra
    header has the canonical name Authorization, the Authorization header is
    the word Bearer, a space and the API key; when exactly one has, its value
    replaces the token; the user agent of a client built by [newHTTPClient]
    is renderscreenshot-go/1.0.0 unless an extra header replaces it; the
    content type is application/json when there is a body and is absent
    otherwise, unless an extra header sets it; and without parameters the
    URL is the base URL followed by the path, while a single parameter is
    appended as ?key=value without any escaping. *)
Theorem doRequest_request_headers (canonical : string -> string)
    (apiKey_ baseURL_ : string) (timeout_ maxRetries_ : Z)
    (retryDelay_ : Float64.float64) (path : string)
    (params : gmap string string) (porder : list string) (hasBody : bool)
    (extraHeaders : gmap string string) (horder : list string) :
  canonical "Authorization" = "Authorization" ->
  canonical "User-Agent" = "User-Agent" ->
  canonical "Content-Type" = "Content-Type" ->
  range_order horder extraHeaders ->
  let c := newHTTPClient apiKey_ baseURL_ timeout_ maxRetries_ retryDelay_ in
  let req := doRequest_request canonical c path params porder hasBody extraHeaders horder in
  let none n := forall k, is_Some (extraHeaders !! k) -> canonical k <> n in
  (none "Authorization" -> reqHeader req !! "Authorization" = Some ("Bearer " ++ apiKey_))
  /\ (forall k v, extraHeaders !! k = Some v -> canonical k = "Authorization" ->
        (forall k', is_Some (extraHeaders !! k') -> canonical k' = "Authorization" -> k' = k) ->
        reqHeader req !! "Authorization" = Some v)
  /\ (none "User-Agent" -> reqHeader req !! "User-Agent" = Some "renderscreenshot-go/1.0.0")
  /\ (none "Content-Type" ->
      reqHeader req !! "Content-Type"
      = if hasBody then Some "application/json" else None)
  /\ (params = ∅ -> reqURL req = baseURL (core c) ++ path)
  /\ (forall k v, params = {[ k := v ]} -> porder = [k] ->
        reqURL req = baseURL (core c) ++ path ++ "?" ++ k ++ "=" ++ v).
Proof.
  intros Hauth Hua Hct Hord. cbv zeta. unfold doRequest_request, Header_Set.
  cbn [reqHeader reqURL]. rewrite Hauth, Hua, Hct.
  split.
  { intros Hnone.
    rewrite (keyed_fold_absent canonical extraHeaders "Authorization" horder)
      by (intros k _; apply Hnone).
    destruct hasBody.
    - repeat (rewrite lookup_insert_ne by discriminate). apply lookup_insert_eq.
    - rewrite lookup_insert_ne by discriminate. apply lookup_insert_eq. }
  split.
  { intros k v Hk Hn Hsole. apply (keyed_fold_sole canonical extraHeaders horder _ "Authorization" k v);
      assumption. }
  split.
  { intros Hnone.
    rewrite (keyed_fold_absent canonical extraHeaders "User-Agent" horder)
      by (intros k _; apply Hnone).
    destruct hasBody.
    - rewrite lookup_insert_ne by discriminate. apply lookup_insert_eq.
    - apply lookup_insert_eq. }
  split.
  { intros Hnone.
    rewrite (keyed_fold_absent canonical extraHeaders "Content-Type" horder)
      by (intros k _; apply Hnone).
    destruct hasBody.
    - apply lookup_insert_eq.
    - repeat (rewrite lookup_insert_ne by discriminate). apply lookup_empty. }
  split.
  { intros ->. rewrite map_size_empty. reflexivity. }
  intros k v -> ->. rewrite map_size_singleton. cbn [Nat.ltb Nat.leb fold_left].
  rewrite lookup_singleton_eq. cbn [app Join].
  apply string_append_assoc.
Qed.

Lemma doRequest_request_headers_witness :
  reqHeader (doRequest_request (fun k => k)
               (newHTTPClient "rs_live_key" EmptyString 0 0 (S754_zero false))
               "/v1/usage" ∅ [] false {[ "Accept" := "application/json" ]} ["Accept"])
    !! "Authorization" = Some "Bearer rs_live_key".
Proof.
  apply (proj1 (doRequest_request_headers (fun k => k) "rs_live_key" EmptyString 0 0
                  (S754_zero false) "/v1/usage" ∅ [] false
                  {[ "Accept" := "application/json" ]} ["Accept"] eq_refl eq_refl eq_refl
                  ltac:(unfold range_order; rewrite map_to_list_singleton; reflexivity))).
  intros k [v Hv]. apply lookup_singleton_Some in Hv as [<- _]. discriminate.
Defined.
